(** * pdf-rag-on-eks: ingestion and query pipeline, verified against its spec

    A shallow embedding of the Python services of the repository:

    - [services/ingestion/app/pdf_parser.py]   (module [PdfParser])
    - [services/ingestion/app/chunker.py]      (module [Chunker])
    - [services/ingestion/app/embedder.py]     (module [Embedder])
    - [services/ingestion/app/vector_store.py] (module [VectorStore])
    - [services/chat-api/app/rag_pipeline.py]  (module [RagPipeline])
    - [services/chat-api/app/main.py]          (module [ChatApi])

    Python [int] is [Z]; [str] is [string] (read as the UTF-8 bytes of the
    text); [list] is [list]; a [dict] with string keys is [gmap string _];
    an exception is the [Raise] branch of [result]; network calls are
    recorded in an explicit trace. *)

From Stdlib Require Import ZArith List Ascii String.
From stdpp Require Import base tactics option list strings pretty gmap.

Local Open Scope string_scope.
Local Open Scope list_scope.
Local Open Scope Z_scope.

(** ** Python primitives used by the services *)

Module Py.

(** The exceptions the modelled code can raise. *)
Inductive exn : Type :=
| ValueError (msg : string)
| ZeroDivisionError
| KeyError (key : string)
| IndexError
| HTTPStatusError (msg : string)
| ConnectError (msg : string)
| HTTPException (status_code : Z) (detail : string).

(** [str(e)] *)
Definition exn_str (e : exn) : string :=
  match e with
  | ValueError msg => msg
  | ZeroDivisionError => "integer division or modulo by zero"
  | KeyError key => "'" +:+ key +:+ "'"
  | IndexError => "list index out of range"
  | HTTPStatusError msg => msg
  | ConnectError msg => msg
  | HTTPException status_code detail => pretty status_code +:+ ": " +:+ detail
  end.

Inductive result (A : Type) : Type :=
| Ok (a : A)
| Raise (e : exn).
Arguments Ok {A} a.
Arguments Raise {A} e.

#[global] Instance result_ret : MRet result := fun _ a => Ok a.
#[global] Instance result_bind : MBind result := fun _ _ f m =>
  match m with
  | Ok a => f a
  | Raise e => Raise e
  end.

(** Values that live in the loosely typed dicts of the source (chunk
    metadata, Qdrant payloads, chat messages). *)
Inductive pyval : Type :=
| PyInt (n : Z)
| PyStr (s : string).

(** [str(v)], which is also what an f-string placeholder [{v}] prints. *)
Definition str (v : pyval) : string :=
  match v with
  | PyInt n => pretty n
  | PyStr s => s
  end.

(** [len(l)] *)
Definition len {A} (l : list A) : Z := Z.of_nat (length l).

(** [list(range(start, stop, step))]: [step = 0] is a [ValueError]; the
    number of elements is [ceil((stop - start) / step)] when that is
    positive, and 0 otherwise. *)
Definition range (start stop step : Z) : result (list Z) :=
  if step =? 0 then Raise (ValueError "range() arg 3 must not be zero")
  else
    let count :=
      if 0 <? step then (stop - start + step - 1) `div` step
      else (start - stop - step - 1) `div` (- step) in
    Ok (map (fun i : nat => start + Z.of_nat i * step) (seq 0 (Z.to_nat count))).

(** A list of loop offsets that starts at [s] and advances by [step]. *)
Fixpoint spaced (step s : Z) (starts : list Z) : Prop :=
  match starts with
  | [] => True
  | x :: rest => x = s ∧ spaced step (s + step) rest
  end.

(** Clamping of one slice bound, as [l[lo:hi]] does it: a negative bound
    counts from the end, and every bound is clipped to [0, len(l)]. *)
Definition slice_bound (n i : Z) : Z :=
  if i <? 0 then Z.max 0 (i + n) else Z.min i n.

(** [l[lo:hi]] *)
Definition slice {A} (l : list A) (lo hi : Z) : list A :=
  let lo' := slice_bound (len l) lo in
  let hi' := slice_bound (len l) hi in
  take (Z.to_nat (hi' - lo')) (drop (Z.to_nat lo') l).

(** The one-character string "\n". *)
Definition nl : string := String (ascii_of_nat 10) "".

(** [sep.join(parts)] *)
Fixpoint join (sep : string) (parts : list string) : string :=
  match parts with
  | [] => ""
  | [p] => p
  | p :: ps => p +:+ sep +:+ join sep ps
  end.

(** [needle in hay], for two strings. *)
Definition contains (needle hay : string) : bool :=
  match String.index 0 needle hay with
  | Some _ => true
  | None => false
  end.

(** [d.get(key, default)] *)
Definition get {V} (d : gmap string V) (key : string) (default : V) : V :=
  match d !! key with
  | Some v => v
  | None => default
  end.

(** [d[key]] *)
Definition getitem {V} (d : gmap string V) (key : string) : result V :=
  match d !! key with
  | Some v => Ok v
  | None => Raise (KeyError key)
  end.

End Py.
Import Py.

(** ** [hashlib] and [uuid]: the two digests the services call *)

Module Hashlib.

(** [s.encode("utf-8")]: a [string] already is the UTF-8 byte sequence. *)
Definition utf8 (s : string) : list Z :=
  map (fun a => Z.of_N (N_of_ascii a)) (list_ascii_of_string s).

Definition w32 (x : Z) : Z := Z.land x 0xffffffff.
Definition rotr (n x : Z) : Z :=
  Z.lor (Z.shiftr x n) (w32 (Z.shiftl x (32 - n))).
Definition rotl (n x : Z) : Z :=
  Z.lor (w32 (Z.shiftl x n)) (Z.shiftr x (32 - n)).
Definition not32 (x : Z) : Z := Z.lxor x 0xffffffff.

(** Big-endian bytes of a number, and back. *)
Fixpoint be_bytes (k : nat) (x : Z) : list Z :=
  match k with
  | O => []
  | S k' => be_bytes k' (x `div` 256) ++ [x `mod` 256]
  end.
Definition be_int (bs : list Z) : Z :=
  fold_left (fun acc b => acc * 256 + b) bs 0.

(** Consecutive groups of [n] elements. *)
Fixpoint groups {A} (fuel n : nat) (l : list A) : list (list A) :=
  match fuel, l with
  | O, _ | _, [] => []
  | S fuel', _ => take n l :: groups fuel' n (drop n l)
  end.

(** Merkle-Damgard padding shared by SHA-1 and SHA-256, then the split
    into 16-word blocks. *)
Definition pad (msg : list Z) : list Z :=
  msg ++ [0x80] ++ repeat 0 (Z.to_nat ((55 - len msg) `mod` 64))
      ++ be_bytes 8 (8 * len msg).
Definition blocks (msg : list Z) : list (list Z) :=
  let p := pad msg in
  map (fun b => map be_int (groups 16 4 b)) (groups (length p) 64 p).

Definition hex_digits : list ascii := list_ascii_of_string "0123456789abcdef".

(** A string of lower-case hexadecimal digits, as [hexdigest()] returns. *)
Definition is_hex (s : string) : bool :=
  forallb (fun c => existsb (Ascii.eqb c) hex_digits) (list_ascii_of_string s).

Definition hex_digit (d : Z) : ascii :=
  nth (Z.to_nat d) hex_digits "0"%char.
Definition hex_byte (b : Z) : list ascii :=
  [hex_digit (b `div` 16); hex_digit (b `mod` 16)].
Definition hex (bs : list Z) : string :=
  string_of_list_ascii (concat (map hex_byte bs)).

(** *** SHA-256 *)

(** The round constants and the initial state are defined as in
    FIPS 180-4: the first 32 bits of the fractional parts of the cube roots
    of the first 64 primes, and of the square roots of the first 8. *)
Fixpoint primes_from (fuel : nat) (candidate : Z) (found : list Z) : list Z :=
  match fuel with
  | O => found
  | S fuel' =>
      if forallb (fun p => negb (candidate `mod` p =? 0)) found
      then primes_from fuel' (candidate + 1) (found ++ [candidate])
      else primes_from fuel' (candidate + 1) found
  end.

(** The integer [k]-th root of [n], one bit at a time from bit [bits - 1]. *)
Fixpoint iroot (k : Z) (n : Z) (bits : nat) (r : Z) : Z :=
  match bits with
  | O => r
  | S bits' =>
      let r' := r + 2 ^ Z.of_nat bits' in
      iroot k n bits' (if r' ^ k <=? n then r' else r)
  end.

Definition K256 : list Z :=
  Eval vm_compute in
    map (fun p => w32 (iroot 3 (p * 2 ^ 96) 40 0)) (take 64 (primes_from 310 2 [])).
Definition H256 : list Z :=
  Eval vm_compute in
    map (fun p => w32 (iroot 2 (p * 2 ^ 64) 40 0)) (take 8 (primes_from 310 2 [])).

Definition schedule256 (block : list Z) : list Z :=
  fold_left (fun w t =>
    let x15 := nth (t - 15) w 0 in
    let x2 := nth (t - 2) w 0 in
    let s0 := Z.lxor (Z.lxor (rotr 7 x15) (rotr 18 x15)) (Z.shiftr x15 3) in
    let s1 := Z.lxor (Z.lxor (rotr 17 x2) (rotr 19 x2)) (Z.shiftr x2 10) in
    w ++ [w32 (nth (t - 16) w 0 + s0 + nth (t - 7) w 0 + s1)])
    (seq 16 48) block.

Definition round256 (st : list Z) (kw : Z * Z) : list Z :=
  match st with
  | [a; b; c; d; e; f; g; h] =>
      let S1 := Z.lxor (Z.lxor (rotr 6 e) (rotr 11 e)) (rotr 25 e) in
      let ch := Z.lxor (Z.land e f) (Z.land (not32 e) g) in
      let t1 := w32 (h + S1 + ch + kw.1 + kw.2) in
      let S0 := Z.lxor (Z.lxor (rotr 2 a) (rotr 13 a)) (rotr 22 a) in
      let maj := Z.lxor (Z.lxor (Z.land a b) (Z.land a c)) (Z.land b c) in
      let t2 := w32 (S0 + maj) in
      [w32 (t1 + t2); a; b; c; w32 (d + t1); e; f; g]
  | _ => st
  end.

Definition compress256 (st block : list Z) : list Z :=
  let st' := fold_left round256 (zip K256 (schedule256 block)) st in
  zip_with (fun x y => w32 (x + y)) st st'.

(** [hashlib.sha256(data).hexdigest()] *)
Definition sha256_hexdigest (data : list Z) : string :=
  hex (concat (map (be_bytes 4) (fold_left compress256 (blocks data) H256))).

(** *** SHA-1 *)

Definition H1 : list Z :=
  [0x67452301; 0xefcdab89; 0x98badcfe; 0x10325476; 0xc3d2e1f0].

Definition schedule1 (block : list Z) : list Z :=
  fold_left (fun w t =>
    w ++ [rotl 1 (Z.lxor (Z.lxor (nth (t - 3) w 0) (nth (t - 8) w 0))
                         (Z.lxor (nth (t - 14) w 0) (nth (t - 16) w 0)))])
    (seq 16 64) block.

Definition round1 (st : list Z) (tw : nat * Z) : list Z :=
  match st with
  | [a; b; c; d; e] =>
      let t := tw.1 in
      let fk :=
        if (t <? 20)%nat then
          (Z.lor (Z.land b c) (Z.land (not32 b) d), 0x5a827999)
        else if (t <? 40)%nat then
          (Z.lxor (Z.lxor b c) d, 0x6ed9eba1)
        else if (t <? 60)%nat then
          (Z.lor (Z.lor (Z.land b c) (Z.land b d)) (Z.land c d), 0x8f1bbcdc)
        else
          (Z.lxor (Z.lxor b c) d, 0xca62c1d6) in
      [w32 (rotl 5 a + fk.1 + e + fk.2 + tw.2); a; rotl 30 b; c; d]
  | _ => st
  end.

Definition compress1 (st block : list Z) : list Z :=
  let st' := fold_left round1 (zip (seq 0 80) (schedule1 block)) st in
  zip_with (fun x y => w32 (x + y)) st st'.

(** [hashlib.sha1(data).digest()] *)
Definition sha1_digest (data : list Z) : list Z :=
  concat (map (be_bytes 4) (fold_left compress1 (blocks data) H1)).

(** *** [uuid] *)

(** [uuid.NAMESPACE_URL.bytes], for 6ba7b811-9dad-11d1-80b4-00c04fd430c8. *)
Definition NAMESPACE_URL : list Z :=
  [0x6b; 0xa7; 0xb8; 0x11; 0x9d; 0xad; 0x11; 0xd1;
   0x80; 0xb4; 0x00; 0xc0; 0x4f; 0xd4; 0x30; 0xc8].
(** [uuid.NAMESPACE_DNS.bytes], for 6ba7b810-9dad-11d1-80b4-00c04fd430c8. *)
Definition NAMESPACE_DNS : list Z :=
  [0x6b; 0xa7; 0xb8; 0x10; 0x9d; 0xad; 0x11; 0xd1;
   0x80; 0xb4; 0x00; 0xc0; 0x4f; 0xd4; 0x30; 0xc8].

(** [str(uuid.uuid5(namespace, name))]: the first 16 bytes of the SHA-1
    of the namespace bytes followed by the name, with the version (5) and
    variant bits set, printed as 8-4-4-4-12 hexadecimal digits. *)
Definition uuid5 (namespace : list Z) (name : string) : string :=
  let digest := take 16 (sha1_digest (namespace ++ utf8 name)) in
  let i := be_int digest in
  let i := Z.land i (Z.lnot (Z.shiftl 0xc000 48)) in
  let i := Z.lor i (Z.shiftl 0x8000 48) in
  let i := Z.land i (Z.lnot (Z.shiftl 0xf000 64)) in
  let i := Z.lor i (Z.shiftl 5 76) in
  let h := hex (be_bytes 16 i) in
  substring 0 8 h +:+ "-" +:+ substring 8 4 h +:+ "-" +:+ substring 12 4 h
    +:+ "-" +:+ substring 16 4 h +:+ "-" +:+ substring 20 12 h.

End Hashlib.

(** ** [pdf_parser.py] *)

Module PdfParser.

(** [@dataclass class Document]; [content_hash] is filled in by
    [__post_init__]. *)
Record Document : Type := mkDocument {
  content : string;
  page_number : Z;
  source : string;
  content_hash : string
}.

(** [__post_init__]: the hash is computed only when none was provided
    ([if not self.content_hash]). *)
Definition post_init (self : Document) : Document :=
  if bool_decide (content_hash self = "") then
    {| content := content self;
       page_number := page_number self;
       source := source self;
       content_hash := Hashlib.sha256_hexdigest (Hashlib.utf8 (content self)) |}
  else self.

(** The generated constructor
    [Document(content, page_number, source, content_hash="")]; [None]
    stands for an omitted [content_hash]. *)
Definition new_Document (content : string) (page_number : Z) (source : string)
    (content_hash : option string) : Document :=
  post_init (mkDocument content page_number source (default "" content_hash)).

(** The invariant of the spec: the hash of a page is the SHA-256 hex
    digest of the UTF-8 bytes of its content. *)
Definition hash_of_content (d : Document) : Prop :=
  content_hash d = Hashlib.sha256_hexdigest (Hashlib.utf8 (content d)).

Section WithExtractor.

(** [str.strip()], a builtin. *)
Variable strip : string -> string.

(** The loop [for page_index, page_data in enumerate(pages)] of
    [parse_pdf], over the page dicts that
    [pymupdf4llm.to_markdown(pdf_path, page_chunks=True)] returned;
    [pdf_filename] is [Path(pdf_path).name]. *)
Fixpoint parse_pages (pdf_filename : string) (page_index : Z)
    (pages : list (gmap string string)) (documents : list Document)
    : list Document :=
  match pages with
  | [] => documents
  | page_data :: rest =>
      let page_text := strip (get page_data "text" "") in
      if bool_decide (page_text = "") then
        parse_pages pdf_filename (page_index + 1) rest documents
      else
        let document :=
          new_Document page_text (page_index + 1) pdf_filename None in
        parse_pages pdf_filename (page_index + 1) rest (documents ++ [document])
  end.

Definition parse_pdf (pdf_filename : string) (pages : list (gmap string string))
    : list Document :=
  parse_pages pdf_filename 0 pages [].

End WithExtractor.

End PdfParser.
Import PdfParser.

(** ** [chunker.py] *)

Module Chunker.

(** [@dataclass class Chunk] *)
Record Chunk : Type := mkChunk {
  text : string;
  metadata : gmap string pyval
}.

(** The window of the loop at offset [start]:
    [token_ids[start : start + chunk_size]]. *)
Definition window_at (token_ids : list Z) (chunk_size start : Z) : list Z :=
  slice token_ids start (start + chunk_size).

(** A chunk as the window loop emits it, together with the token window
    it was decoded from and the offset of that window. *)
Record Emitted : Type := mkEmitted {
  em_start : Z;
  em_window : list Z;
  em_index : Z
}.

Section WithTokenizer.

(** [_ENCODING = tiktoken.get_encoding("cl100k_base")]: the tokenizer is
    an external library; the chunker only uses its two functions. Here
    [encode] gives the tokens of a text that the tokenizer accepts; the
    texts it refuses are the subject of [SpecialTokens] below. *)
Variable encode : string -> list Z.
Variable decode : list Z -> string.

(** Step 4 of the loop body: [Chunk(text=chunk_text, metadata={...})]. *)
Definition make_chunk (document : Document) (e : Emitted) : Chunk :=
  {| text := decode (em_window e);
     metadata :=
       <["page_number" := PyInt (page_number document)]>
       (<["source" := PyStr (source document)]>
       (<["content_hash" := PyStr (content_hash document)]>
       (<["chunk_index" := PyInt (em_index e)]> ∅))) |}.

(** The body of [for start in range(0, len(token_ids), step)], iterated
    over the remaining values of [start], with the running
    [chunk_index]. A window of fewer than 20 tokens is skipped
    ([continue]); after a window that reaches the end of the token list
    the loop stops ([break]). *)
Fixpoint slide (token_ids : list Z) (chunk_size : Z)
    (starts : list Z) (chunk_index : Z) : list Emitted :=
  match starts with
  | [] => []
  | start :: rest =>
      let window := slice token_ids start (start + chunk_size) in
      if len window <? 20 then slide token_ids chunk_size rest chunk_index
      else
        mkEmitted start window chunk_index ::
        (if start + chunk_size >=? len token_ids then []
         else slide token_ids chunk_size rest (chunk_index + 1))
  end.

(** The windows emitted for one page: [chunk_index = 0] and the loop
    over [range(0, len(token_ids), step)]. *)
Definition page_windows (token_ids : list Z) (chunk_size chunk_overlap : Z)
    : result (list Emitted) :=
  let step := chunk_size - chunk_overlap in
  starts ← range 0 (len token_ids) step;
  mret (slide token_ids chunk_size starts 0).

(** The outer loop [for document in documents], with the accumulator
    [all_chunks]. *)
Fixpoint chunk_loop (documents : list Document) (chunk_size chunk_overlap : Z)
    (all_chunks : list Chunk) : result (list Chunk) :=
  match documents with
  | [] => Ok all_chunks
  | document :: rest =>
      let token_ids := encode (content document) in
      if len token_ids =? 0 then
        chunk_loop rest chunk_size chunk_overlap all_chunks
      else
        ws ← page_windows token_ids chunk_size chunk_overlap;
        chunk_loop rest chunk_size chunk_overlap
          (all_chunks ++ map (make_chunk document) ws)
  end.

Definition chunk_documents (documents : list Document)
    (chunk_size chunk_overlap : Z) : result (list Chunk) :=
  chunk_loop documents chunk_size chunk_overlap [].

(** The chunks of one page, when the window loop does not raise. *)
Definition page_chunks (chunk_size chunk_overlap : Z) (document : Document)
    : list Chunk :=
  match page_windows (encode (content document)) chunk_size chunk_overlap with
  | Ok ws => map (make_chunk document) ws
  | Raise _ => []
  end.

End WithTokenizer.

(** A byte-level tokenizer, used to run the chunker on concrete pages. *)
Definition byte_encode (s : string) : list Z :=
  map (fun a => Z.of_nat (nat_of_ascii a)) (list_ascii_of_string s).
Definition byte_decode (ts : list Z) : string :=
  string_of_list_ascii (map (fun t => ascii_of_nat (Z.to_nat t)) ts).

End Chunker.
Import Chunker.

(** ** [chunker.py] when the tokenizer refuses a page *)

Module SpecialTokens.

Section WithTokenizer.

(** [_ENCODING.encode(text)] as tiktoken runs it by default
    ([disallowed_special="all"]): a text that spells a special token, such
    as [<|endoftext|>], is refused with a [ValueError]. *)
Variable encode : string -> result (list Z).
Variable decode : list Z -> string.

(** The outer loop [for document in documents] of [chunk_documents]; an
    error of the tokenizer is not caught and ends the call. *)
Fixpoint chunk_loop (documents : list Document) (chunk_size chunk_overlap : Z)
    (all_chunks : list Chunk) : result (list Chunk) :=
  match documents with
  | [] => Ok all_chunks
  | document :: rest =>
      token_ids ← encode (content document);
      if len token_ids =? 0 then
        chunk_loop rest chunk_size chunk_overlap all_chunks
      else
        ws ← page_windows token_ids chunk_size chunk_overlap;
        chunk_loop rest chunk_size chunk_overlap
          (all_chunks ++ map (make_chunk decode document) ws)
  end.

Definition chunk_documents (documents : list Document)
    (chunk_size chunk_overlap : Z) : result (list Chunk) :=
  chunk_loop documents chunk_size chunk_overlap [].

End WithTokenizer.

End SpecialTokens.

(** ** [embedder.py] *)

Module Embedder.

Record EmbeddingClient : Type := mkEmbeddingClient {
  base_url : string;
  batch_size : Z
}.

(** [base_url.rstrip("/")] *)
Fixpoint rstrip_slash (s : string) : string :=
  match s with
  | EmptyString => EmptyString
  | String c s' =>
      match rstrip_slash s' with
      | EmptyString => if Ascii.eqb c "/" then EmptyString else String c EmptyString
      | r => String c r
      end
  end.

(** [EmbeddingClient(base_url, batch_size=32)] *)
Definition new_EmbeddingClient (base_url : string) (batch_size : option Z)
    : EmbeddingClient :=
  mkEmbeddingClient (rstrip_slash base_url) (default 32 batch_size).

(** One request [client.post(url, json={"inputs": batch})]. *)
Record EmbedRequest : Type := mkEmbedRequest {
  url : string;
  inputs : list string
}.

(** The batch of the loop at offset [batch_index], and the request that
    carries it. *)
Definition batch_at (self : EmbeddingClient) (prefixed_texts : list string)
    (batch_index : Z) : list string :=
  slice prefixed_texts batch_index (batch_index + batch_size self).
Definition request_at (self : EmbeddingClient) (prefixed_texts : list string)
    (batch_index : Z) : EmbedRequest :=
  mkEmbedRequest (base_url self +:+ "/embed")
    (batch_at self prefixed_texts batch_index).

(** The offsets [j * batch_size, ..., (j + k - 1) * batch_size]. *)
Definition offsets (self : EmbeddingClient) (j k : nat) : list Z :=
  map (fun i : nat => 0 + Z.of_nat i * batch_size self) (seq j k).

Section WithServer.

(** An embedding vector ([list[float]]). *)
Variable Vec : Type.
(** The TEI server. [post] stands for the request, [raise_for_status()]
    and [response.json()]: it answers with the vectors, or the call
    raises. *)
Variable Server : Type.
Variable post : Server -> EmbedRequest -> Server * result (list Vec).

(** The loop [for batch_index in range(0, len(prefixed_texts),
    batch_size)], with the accumulator [all_embeddings] and the log of
    the requests sent so far. *)
Fixpoint embed_batches (self : EmbeddingClient) (prefixed_texts : list string)
    (starts : list Z) (all_embeddings : list Vec)
    (sent : list EmbedRequest) (srv : Server)
    : Server * list EmbedRequest * result (list Vec) :=
  match starts with
  | [] => (srv, sent, Ok all_embeddings)
  | batch_index :: rest =>
      let batch :=
        slice prefixed_texts batch_index (batch_index + batch_size self) in
      let request := mkEmbedRequest (base_url self +:+ "/embed") batch in
      match post srv request with
      | (srv', Raise e) => (srv', sent ++ [request], Raise e)
      | (srv', Ok batch_embeddings) =>
          embed_batches self prefixed_texts rest
            (all_embeddings ++ batch_embeddings) (sent ++ [request]) srv'
      end
  end.

(** [embed_texts(texts, prefix="search_document: ")]. The result carries
    the server state and the requests issued, in order. *)
Definition embed_texts (self : EmbeddingClient) (texts : list string)
    (prefix : string) (srv : Server)
    : Server * list EmbedRequest * result (list Vec) :=
  let prefixed_texts := map (fun text => prefix +:+ text) texts in
  (* total_batches = (len(prefixed_texts) + batch_size - 1) // batch_size *)
  if batch_size self =? 0 then (srv, [], Raise ZeroDivisionError)
  else
    match range 0 (len prefixed_texts) (batch_size self) with
    | Raise e => (srv, [], Raise e)
    | Ok starts => embed_batches self prefixed_texts starts [] [] srv
    end.

End WithServer.

End Embedder.

(** ** [vector_store.py] *)

Module VectorStore.

Record VectorStore : Type := mkVectorStore {
  collection_name : string;
  vector_dimension : Z
}.

(** The name hashed into the point id:
    [f"{chunk.metadata['content_hash']}_{chunk.metadata['chunk_index']}"]. *)
Definition point_name (content_hash chunk_index : pyval) : string :=
  str content_hash +:+ "_" +:+ str chunk_index.

(** [str(uuid.uuid5(uuid.NAMESPACE_URL, name))] *)
Definition point_id (content_hash chunk_index : pyval) : string :=
  Hashlib.uuid5 Hashlib.NAMESPACE_URL (point_name content_hash chunk_index).

Section WithQdrant.

Variable Vec : Type.

(** [qdrant_models.PointStruct] *)
Record PointStruct : Type := mkPointStruct {
  id : string;
  vector : Vec;
  payload : gmap string pyval
}.

(** The Qdrant server behind [self.client]. *)
Variable Qdrant : Type.
Variable client_upsert :
  Qdrant -> string -> list PointStruct -> Qdrant * result unit.

(** What [upsert_chunks] does that can be observed: a point record
    appended to [points], and a call of [self.client.upsert]. *)
Inductive event : Type :=
| PointBuilt (p : PointStruct)
| UpsertCall (collection_name : string) (points : list PointStruct).

(** The body of [for chunk, embedding in zip(chunks, embeddings)]. *)
Definition build_point (chunk : Chunk) (embedding : Vec) : result PointStruct :=
  content_hash ← getitem (Chunker.metadata chunk) "content_hash";
  chunk_index ← getitem (Chunker.metadata chunk) "chunk_index";
  let payload := <["text" := PyStr (Chunker.text chunk)]> (Chunker.metadata chunk) in
  mret (mkPointStruct (point_id content_hash chunk_index) embedding payload).

Fixpoint build_points (pairs : list (Chunk * Vec)) (points : list PointStruct)
    (trace : list event) : list event * result (list PointStruct) :=
  match pairs with
  | [] => (trace, Ok points)
  | (chunk, embedding) :: rest =>
      match build_point chunk embedding with
      | Raise e => (trace, Raise e)
      | Ok p => build_points rest (points ++ [p]) (trace ++ [PointBuilt p])
      end
  end.

(** The loop [for i in range(0, len(points), batch_size)]. *)
Fixpoint upsert_batches (self : VectorStore) (points : list PointStruct)
    (batch_size : Z) (starts : list Z) (trace : list event) (q : Qdrant)
    : Qdrant * list event * result unit :=
  match starts with
  | [] => (q, trace, Ok ())
  | i :: rest =>
      let batch := slice points i (i + batch_size) in
      match client_upsert q (collection_name self) batch with
      | (q', Raise e) =>
          (q', trace ++ [UpsertCall (collection_name self) batch], Raise e)
      | (q', Ok _) =>
          upsert_batches self points batch_size rest
            (trace ++ [UpsertCall (collection_name self) batch]) q'
      end
  end.

Definition upsert_chunks (self : VectorStore) (chunks : list Chunk)
    (embeddings : list Vec) (q : Qdrant) : Qdrant * list event * result unit :=
  if negb (len chunks =? len embeddings) then
    (q, [],
     Raise (ValueError ("Mismatch: " +:+ pretty (len chunks) +:+ " chunks but "
                        +:+ pretty (len embeddings) +:+ " embeddings")))
  else
    match build_points (zip chunks embeddings) [] [] with
    | (trace, Raise e) => (q, trace, Raise e)
    | (trace, Ok points) =>
        let batch_size := 100 in
        match range 0 (len points) batch_size with
        | Raise e => (q, trace, Raise e)
        | Ok starts => upsert_batches self points batch_size starts trace q
        end
    end.

End WithQdrant.

Arguments mkPointStruct {Vec} _ _ _.
Arguments id {Vec} _.
Arguments vector {Vec} _.
Arguments payload {Vec} _.
Arguments PointBuilt {Vec} _.
Arguments UpsertCall {Vec} _ _.

End VectorStore.

(** ** [rag_pipeline.py] *)

Module RagPipeline.

(** [config.py] of the chat API, with the fields the pipeline reads. *)
Record Config (Float : Type) : Type := mkConfig {
  qdrant_collection : string;
  embedding_url : string;
  vllm_url : string;
  vllm_model : string;
  rag_top_k : Z;
  rag_temperature : Float;
  rag_max_tokens : Z
}.
Arguments mkConfig {Float} _ _ _ _ _ _ _.
Arguments qdrant_collection {Float} _.
Arguments embedding_url {Float} _.
Arguments vllm_url {Float} _.
Arguments vllm_model {Float} _.
Arguments rag_top_k {Float} _.
Arguments rag_temperature {Float} _.
Arguments rag_max_tokens {Float} _.

(** [qdrant_client.models.ScoredPoint] *)
Record ScoredPoint (Float : Type) : Type := mkScoredPoint {
  payload : gmap string pyval;
  score : Float
}.
Arguments mkScoredPoint {Float} _ _.
Arguments payload {Float} _.
Arguments score {Float} _.

(** Modelled from the spec: [models.py] with the [Source] record is not
    part of the sources; a Retrieval Result / Source has [text],
    [page_number], [source] and [score]. *)
Record Source (Float : Type) : Type := mkSource {
  text : pyval;
  page_number : pyval;
  source : pyval;
  source_score : Float
}.
Arguments mkSource {Float} _ _ _ _.
Arguments text {Float} _.
Arguments page_number {Float} _.
Arguments source {Float} _.
Arguments source_score {Float} _.

(** A chat message, [{"role": ..., "content": ...}]. *)
Definition message (role content : pyval) : gmap string pyval :=
  <["role" := role]> (<["content" := content]> ∅).

(** The body sent to [/v1/chat/completions]. *)
Record ChatCompletionRequest (Float : Type) : Type := mkChatCompletionRequest {
  model : string;
  messages : list (gmap string pyval);
  temperature : Float;
  max_tokens : Z
}.
Arguments mkChatCompletionRequest {Float} _ _ _ _.
Arguments model {Float} _.
Arguments messages {Float} _.
Arguments temperature {Float} _.
Arguments max_tokens {Float} _.

(** The three services behind the pipeline and the floats they exchange.
    Each call answers with a value or raises, and may change the state
    of the outside world. *)
Class Backends : Type := {
  Float : Type;
  Vec : Type;
  World : Type;
  (** [round(x, ndigits)] *)
  round : Float -> Z -> Float;
  (** [http_client.post(url, json={"inputs": inputs})], then
      [raise_for_status()] and [response.json()]. *)
  post_embed : World -> string -> list string -> World * result (list Vec);
  (** [qdrant_client.query_points(collection_name, query, limit,
      with_payload=True).points] *)
  query_points :
    World -> string -> Vec -> Z -> World * result (list (ScoredPoint Float));
  (** [http_client.post(url, json=request)], then [raise_for_status()] and
      [response.json()["choices"][0]["message"]["content"]]. *)
  post_chat :
    World -> string -> ChatCompletionRequest Float -> World * result string
}.

(** The calls a run of the pipeline makes, in order. *)
Inductive call `{Backends} : Type :=
| EmbedCall (url : string) (inputs : list string)
| SearchCall (collection_name : string) (query : Vec) (limit : Z)
| GenerateCall (url : string) (request : ChatCompletionRequest Float).

Definition system_prompt : string :=
  "You are a helpful assistant that answers questions based on the "
  +:+ "provided context. Always cite which page numbers your answer comes "
  +:+ "from. If the context doesn't contain enough information to answer "
  +:+ "the question, say so honestly. Do not make up information that is "
  +:+ "not supported by the context.".

Section WithBackends.
Context `{Backends}.

Record RAGPipeline : Type := mkRAGPipeline {
  config : Config Float
}.

(** Step 1 *)
Definition embed_question (self : RAGPipeline) (question : string) (w : World)
    : World * list call * result Vec :=
  let url := embedding_url (config self) +:+ "/embed" in
  let inputs := ["search_query: " +:+ question] in
  match post_embed w url inputs with
  | (w', Raise e) => (w', [EmbedCall url inputs], Raise e)
  | (w', Ok embeddings) =>
      (w', [EmbedCall url inputs],
       match embeddings with
       | [] => Raise IndexError
       | embedding_vector :: _ => Ok embedding_vector
       end)
  end.

(** Step 2 *)
Definition search_qdrant (self : RAGPipeline) (query_embedding : Vec)
    (top_k : Z) (w : World)
    : World * list call * result (list (ScoredPoint Float)) :=
  let c := qdrant_collection (config self) in
  let '(w', results) := query_points w c query_embedding top_k in
  (w', [SearchCall c query_embedding top_k], results).

(** The loop [for msg in history] of [build_prompt]. *)
Definition history_messages (history : list (gmap string pyval))
    : list (gmap string pyval) :=
  map (fun msg => message (get msg "role" (PyStr "user"))
                          (get msg "content" (PyStr ""))) history.

(** The loop [for i, chunk in enumerate(context_chunks, start=1)]. *)
Fixpoint context_parts (i : Z) (context_chunks : list (ScoredPoint Float))
    : list string :=
  match context_chunks with
  | [] => []
  | chunk :: rest =>
      let page_num := get (payload chunk) "page_number" (PyStr "unknown") in
      let chunk_text := get (payload chunk) "text" (PyStr "") in
      ("[" +:+ pretty i +:+ "] (Page " +:+ str page_num +:+ "): "
         +:+ str chunk_text)
      :: context_parts (i + 1) rest
  end.

Definition user_message (question : string)
    (context_chunks : list (ScoredPoint Float)) : string :=
  let context_text := join (nl +:+ nl) (context_parts 1 context_chunks) in
  "Context:" +:+ nl +:+ context_text +:+ nl +:+ nl
  +:+ "Question: " +:+ question +:+ nl +:+ nl
  +:+ "Answer based on the context above. Cite page numbers.".

(** Step 3. [history] is [None], or a list that may be empty; both
    are falsy in [if history:]. *)
Definition build_prompt (question : string)
    (context_chunks : list (ScoredPoint Float))
    (history : option (list (gmap string pyval)))
    : list (gmap string pyval) :=
  [message (PyStr "system") (PyStr system_prompt)]
  ++ match history with
     | Some (msg :: rest) => history_messages (msg :: rest)
     | _ => []
     end
  ++ [message (PyStr "user") (PyStr (user_message question context_chunks))].

(** Step 4 *)
Definition generate_answer (self : RAGPipeline)
    (messages : list (gmap string pyval)) (w : World)
    : World * list call * result string :=
  let url := vllm_url (config self) +:+ "/v1/chat/completions" in
  let request :=
    mkChatCompletionRequest (vllm_model (config self)) messages
      (rag_temperature (config self)) (rag_max_tokens (config self)) in
  let '(w', answer) := post_chat w url request in
  (w', [GenerateCall url request], answer).

(** The loop [for result in search_results] of [query]. *)
Definition package_sources (search_results : list (ScoredPoint Float))
    : list (Source Float) :=
  map (fun result =>
         mkSource (get (payload result) "text" (PyStr ""))
                  (get (payload result) "page_number" (PyInt 0))
                  (get (payload result) "source" (PyStr "unknown"))
                  (round (score result) 4)) search_results.

(** Step 5: the whole pipeline. A step that raises ends the run. *)
Definition query (self : RAGPipeline) (question : string)
    (history : option (list (gmap string pyval))) (w : World)
    : World * list call * result (string * list (Source Float)) :=
  match embed_question self question w with
  | (w1, t1, Raise e) => (w1, t1, Raise e)
  | (w1, t1, Ok query_embedding) =>
      match search_qdrant self query_embedding (rag_top_k (config self)) w1 with
      | (w2, t2, Raise e) => (w2, t1 ++ t2, Raise e)
      | (w2, t2, Ok search_results) =>
          let messages := build_prompt question search_results history in
          match generate_answer self messages w2 with
          | (w3, t3, Raise e) => (w3, t1 ++ t2 ++ t3, Raise e)
          | (w3, t3, Ok answer) =>
              (w3, t1 ++ t2 ++ t3, Ok (answer, package_sources search_results))
          end
      end
  end.

End WithBackends.

End RagPipeline.

(** ** [main.py] of the chat API *)

Module ChatApi.
Import RagPipeline.

Section WithBackends.
Context `{Backends}.

(** Modelled from the spec: [models.py] with [ChatRequest] and
    [ChatResponse] is not part of the sources; the request body is
    [{question, history?}] and the response is
    [{answer, sources, model, chunks_retrieved}]. *)
Record ChatRequest : Type := mkChatRequest {
  question : string;
  history : option (list (gmap string pyval))
}.
Record ChatResponse : Type := mkChatResponse {
  answer : string;
  sources : list (Source Float);
  response_model : string;
  chunks_retrieved : Z
}.

(** The module-level state: the global [pipeline], [None] until the
    lifespan startup has run. *)
Record App : Type := mkApp {
  pipeline : option RAGPipeline
}.

Definition initial : App := mkApp None.

(** The startup half of [lifespan]: [pipeline = RAGPipeline(config)]. *)
Definition lifespan_startup (config : Config Float) (app : App) : App :=
  mkApp (Some (mkRAGPipeline config)).

(** [GET /health]. A returned dict is a 200 response with that body; a
    raised [HTTPException] is a response with its status code. *)
Definition health (app : App) : result (gmap string pyval) :=
  Ok (<["status" := PyStr "healthy"]> ∅).

(** [POST /chat] *)
Definition chat (app : App) (request : ChatRequest) (w : World)
    : World * list call * result ChatResponse :=
  match pipeline app with
  | None =>
      (w, [],
       Raise (HTTPException 503
         "RAG pipeline not initialized. The server may still be starting up."))
  | Some p =>
      match query p (question request) (history request) w with
      | (w', t, Ok (answer, sources)) =>
          (w', t,
           Ok (mkChatResponse answer sources (vllm_model (config p)) (len sources)))
      | (w', t, Raise e) => (w', t, Raise (HTTPException 500 (exn_str e)))
      end
  end.

End WithBackends.

End ChatApi.

(** ** Concrete collaborators, to run the services on examples *)

Module Demo.
Import RagPipeline.

(** A page of 1000 one-byte tokens. *)
Definition page_1000 : Document :=
  new_Document (string_of_list_ascii (repeat "a"%char 1000)) 1 "manual.pdf" None.

(** An embedding server that answers with the length of each input and
    counts the requests it has served. *)
Definition length_server (served : nat) (request : Embedder.EmbedRequest)
    : nat * result (list nat) :=
  (S served, Ok (map String.length (Embedder.inputs request))).

(** Backends with an empty collection: the embedding of a text is its
    length, the search finds nothing, and the model gives a fixed answer.
    The world counts the calls made. *)
#[local] Instance empty_collection : Backends := {|
  Float := Z;
  Vec := list Z;
  World := nat;
  round := fun x _ => x;
  post_embed := fun w _ inputs =>
    (S w, Ok (map (fun s => [Z.of_nat (String.length s)]) inputs));
  query_points := fun w _ _ _ => (S w, Ok []);
  post_chat := fun w _ _ => (S w, Ok "The context does not say.")
|}.

Definition demo_config : Config Z :=
  mkConfig "pdf_chunks" "http://embedding:8080" "http://vllm:8000"
    "hugging-quants/Meta-Llama-3.1-8B-Instruct-AWQ-INT4" 5 1 1024.

Definition demo_pipeline : RAGPipeline := mkRAGPipeline demo_config.

End Demo.

(** ** The chunks a page is expected to give *)

Module ChunkPlan.

(** The number of chunks of a page of [n] tokens when at least 19 tokens
    overlap: none below 20 tokens, one up to [chunk_size] tokens, and one
    more for every further step begun. *)
Definition chunk_count (n chunk_size chunk_overlap : Z) : Z :=
  let step := chunk_size - chunk_overlap in
  if n <? 20 then 0
  else if n <=? chunk_size then 1
  else 1 + (n - chunk_size + step - 1) `div` step.

(** The [i]-th chunk of such a page: the window at offset [i * step]. *)
Definition nth_window (token_ids : list Z) (chunk_size chunk_overlap : Z)
    (i : nat) : Emitted :=
  let start := 0 + Z.of_nat i * (chunk_size - chunk_overlap) in
  mkEmitted start (window_at token_ids chunk_size start) (0 + Z.of_nat i).

(** Position [p] of the token list lies in the window of [e]. *)
Definition covers (e : Emitted) (p : Z) : Prop :=
  em_start e ≤ p < em_start e + len (em_window e).


(** A page that the loop passes over when the step is not positive: the
    tokenizer accepts its text and, if the step is zero, finds no token. *)
Definition passed_over (encode : string -> result (list Z))
    (chunk_size chunk_overlap : Z) (document : Document) : Prop :=
  ∃ token_ids,
    encode (content document) = Ok token_ids ∧
    (chunk_size = chunk_overlap → token_ids = []).

End ChunkPlan.

(** ** The pages [parse_pdf] is expected to give *)

Module ParsePlan.

(** The document of the page at position [page_index] of the PDF, if the
    page is not blank. *)
Definition page_document (strip : string -> string) (pdf_filename : string)
    (page_index : Z) (page_data : gmap string string) : list Document :=
  let page_text := strip (get page_data "text" "") in
  if bool_decide (page_text = "") then []
  else [new_Document page_text (page_index + 1) pdf_filename None].

Fixpoint page_documents (strip : string -> string) (pdf_filename : string)
    (page_index : Z) (pages : list (gmap string string)) : list Document :=
  match pages with
  | [] => []
  | page_data :: rest =>
      page_document strip pdf_filename page_index page_data
      ++ page_documents strip pdf_filename (page_index + 1) rest
  end.

End ParsePlan.

(** ** [vector_store.py]: the collection *)

Module Collection.

(** [qdrant_models.Distance] *)
Inductive Distance : Type := COSINE | EUCLID | DOT | MANHATTAN.

(** [qdrant_models.VectorParams] *)
Record VectorParams : Type := mkVectorParams {
  size : Z;
  distance : Distance
}.

(** What [client.get_collection] returns, as far as the code reads it. *)
Record CollectionInfo : Type := mkCollectionInfo {
  points_count : pyval;
  status : pyval
}.

(** The calls made on [self.client]. *)
Inductive call : Type :=
| GetCollections
| CreateCollection (collection_name : string) (vectors_config : VectorParams)
| GetCollection (collection_name : string).

Section WithQdrant.

Variable Qdrant : Type.
(** [[c.name for c in client.get_collections().collections]] *)
Variable get_collections : Qdrant -> Qdrant * result (list string).
Variable create_collection :
  Qdrant -> string -> VectorParams -> Qdrant * result unit.
Variable get_collection : Qdrant -> string -> Qdrant * result CollectionInfo.

Definition ensure_collection (self : VectorStore.VectorStore) (q : Qdrant)
    : Qdrant * list call * result unit :=
  match get_collections q with
  | (q1, Raise e) => (q1, [GetCollections], Raise e)
  | (q1, Ok existing_collections) =>
      if bool_decide (VectorStore.collection_name self ∈ existing_collections)
      then (q1, [GetCollections], Ok ())
      else
        let vectors_config :=
          mkVectorParams (VectorStore.vector_dimension self) COSINE in
        let created :=
          CreateCollection (VectorStore.collection_name self) vectors_config in
        match create_collection q1 (VectorStore.collection_name self)
                vectors_config with
        | (q2, Raise e) => (q2, [GetCollections; created], Raise e)
        | (q2, Ok _) => (q2, [GetCollections; created], Ok ())
        end
  end.

Definition get_collection_info (self : VectorStore.VectorStore) (q : Qdrant)
    : Qdrant * list call * result (gmap string pyval) :=
  let name := VectorStore.collection_name self in
  match get_collection q name with
  | (q1, Raise e) => (q1, [GetCollection name], Raise e)
  | (q1, Ok info) =>
      (q1, [GetCollection name],
       Ok (<["collection_name" := PyStr name]>
           (<["points_count" := points_count info]>
           (<["status" := status info]> ∅))))
  end.

End WithQdrant.

End Collection.

(** ** Batches, and services that answer them one by one *)

Module Batching.

(** The offsets [0, size, 2 * size, ...] below [n]. *)
Definition offsets (n size : Z) : list Z :=
  map (fun i : nat => 0 + Z.of_nat i * size)
    (seq 0 (Z.to_nat ((n + size - 1) `div` size))).

(** The consecutive batches of at most [size] elements of a list. *)
Definition batches {A} (l : list A) (size : Z) : list (list A) :=
  map (fun i => slice l i (i + size)) (offsets (len l) size).

(** A service answers the requests one after the other, each from the
    state the previous one left: the final state if all are accepted. *)
Fixpoint run_ok {S R A} (call : S -> R -> S * result A) (s : S)
    (requests : list R) : option S :=
  match requests with
  | [] => Some s
  | r :: rest =>
      match call s r with
      | (s', Ok _) => run_ok call s' rest
      | (_, Raise _) => None
      end
  end.

(** The same, collecting the answers, each of which is a list. *)
Fixpoint run_collect {S R A} (call : S -> R -> S * result (list A)) (s : S)
    (requests : list R) : option (S * list A) :=
  match requests with
  | [] => Some (s, [])
  | r :: rest =>
      match call s r with
      | (s', Ok answer) =>
          match run_collect call s' rest with
          | Some (s'', answers) => Some (s'', answer ++ answers)
          | None => None
          end
      | (_, Raise _) => None
      end
  end.

(** The requests that [embed_texts] means to send for [texts]. *)
Definition embed_plan (self : Embedder.EmbeddingClient) (texts : list string)
    (prefix : string) : list Embedder.EmbedRequest :=
  map (Embedder.mkEmbedRequest (Embedder.base_url self +:+ "/embed"))
    (batches (map (fun text => prefix +:+ text) texts) (Embedder.batch_size self)).

(** A chunk whose metadata has the two keys that the point id reads. *)
Definition has_keys (chunk : Chunk) : Prop :=
  is_Some (Chunker.metadata chunk !! "content_hash") ∧
  is_Some (Chunker.metadata chunk !! "chunk_index").

(** The key that [upsert_chunks] misses first in the metadata of a chunk. *)
Definition missing_key (chunk : Chunk) : option string :=
  match Chunker.metadata chunk !! "content_hash",
        Chunker.metadata chunk !! "chunk_index" with
  | None, _ => Some "content_hash"
  | Some _, None => Some "chunk_index"
  | Some _, Some _ => None
  end.

(** The point of a chunk that has both keys. *)
Definition point_of {Vec} (chunk : Chunk) (embedding : Vec)
    : VectorStore.PointStruct Vec :=
  VectorStore.mkPointStruct
    (VectorStore.point_id
       (get (Chunker.metadata chunk) "content_hash" (PyStr ""))
       (get (Chunker.metadata chunk) "chunk_index" (PyStr "")))
    embedding
    (<["text" := PyStr (Chunker.text chunk)]> (Chunker.metadata chunk)).

(** The events of a run of [upsert_chunks] that builds [points] and
    sends [sent]. *)
Definition upsert_trace {Vec} (collection_name : string)
    (points : list (VectorStore.PointStruct Vec))
    (sent : list (list (VectorStore.PointStruct Vec)))
    : list (VectorStore.event Vec) :=
  map VectorStore.PointBuilt points
  ++ map (VectorStore.UpsertCall collection_name) sent.

End Batching.

(** ** [main.py] of the ingestion service *)

Module Ingestion.

(** [config.py] of the ingestion service. *)
Record Config : Type := mkConfig {
  qdrant_host : string;
  qdrant_port : Z;
  qdrant_collection : string;
  embedding_url : string;
  embedding_dimension : Z;
  embedding_batch_size : Z;
  chunk_size : Z;
  chunk_overlap : Z;
  pdf_directory : string
}.

(** The defaults of the class. *)
Definition default_config : Config :=
  mkConfig "qdrant" 6333 "pdf_chunks" "http://embedding:8080" 768 32 512 50 "/data".

(** How a run ends: [sys.exit(code)], the normal return, or an exception
    that escapes [main]. *)
Inductive outcome : Type :=
| Exit (code : Z)
| Completed (collection_info : gmap string pyval)
| Crashed (e : exn).

Section WithWorld.

(** The tokenizer and [str.strip()]. *)
Variable encode : string -> list Z.
Variable decode : list Z -> string.
Variable strip : string -> string.

(** The file system: [pdf_dir.exists()], [sorted(pdf_dir.glob(pattern))]
    as path strings, [Path(pdf_path).name], and the pages that
    [pymupdf4llm.to_markdown] reads from a file. *)
Variable exists_dir : string -> bool.
Variable sorted_glob : string -> string -> list string.
Variable path_name : string -> string.
Variable to_markdown : string -> list (gmap string string).

(** The embedding server and the Qdrant server. *)
Variable Vec : Type.
Variable Server : Type.
Variable post : Server -> Embedder.EmbedRequest -> Server * result (list Vec).
Variable Qdrant : Type.
Variable get_collections : Qdrant -> Qdrant * result (list string).
Variable create_collection :
  Qdrant -> string -> Collection.VectorParams -> Qdrant * result unit.
Variable client_upsert :
  Qdrant -> string -> list (VectorStore.PointStruct Vec) -> Qdrant * result unit.
Variable get_collection :
  Qdrant -> string -> Qdrant * result Collection.CollectionInfo.

(** Everything a run does to the two servers, in order. *)
Inductive event : Type :=
| Admin (c : Collection.call)
| Embed (r : Embedder.EmbedRequest)
| Store (e : VectorStore.event Vec).

(** The loop [for pdf_path in pdf_files] with the accumulator
    [all_chunks]. *)
Fixpoint collect_chunks (config : Config) (pdf_files : list string)
    (all_chunks : list Chunk) : result (list Chunk) :=
  match pdf_files with
  | [] => Ok all_chunks
  | pdf_path :: rest =>
      let documents := parse_pdf strip (path_name pdf_path) (to_markdown pdf_path) in
      chunks ← chunk_documents encode decode documents
                 (chunk_size config) (chunk_overlap config);
      collect_chunks config rest (all_chunks ++ chunks)
  end.

Definition main (config : Config) (srv : Server) (q : Qdrant)
    : Server * Qdrant * list event * outcome :=
  if negb (exists_dir (pdf_directory config)) then (srv, q, [], Exit 1)
  else
    let pdf_files :=
      sorted_glob (pdf_directory config) "*.pdf"
      ++ sorted_glob (pdf_directory config) "*.PDF" in
    match pdf_files with
    | [] => (srv, q, [], Exit 0)
    | _ :: _ =>
        match collect_chunks config pdf_files [] with
        | Raise e => (srv, q, [], Crashed e)
        | Ok [] => (srv, q, [], Exit 0)
        | Ok all_chunks =>
            let vector_store :=
              VectorStore.mkVectorStore (qdrant_collection config)
                (embedding_dimension config) in
            match Collection.ensure_collection Qdrant get_collections
                    create_collection vector_store q with
            | (q1, t1, Raise e) => (srv, q1, map Admin t1, Crashed e)
            | (q1, t1, Ok _) =>
                let embedding_client :=
                  Embedder.new_EmbeddingClient (embedding_url config)
                    (Some (embedding_batch_size config)) in
                let chunk_texts := map Chunker.text all_chunks in
                match Embedder.embed_texts Vec Server post embedding_client
                        chunk_texts "search_document: " srv with
                | (srv1, t2, Raise e) =>
                    (srv1, q1, map Admin t1 ++ map Embed t2, Crashed e)
                | (srv1, t2, Ok embeddings) =>
                    match VectorStore.upsert_chunks Vec Qdrant client_upsert
                            vector_store all_chunks embeddings q1 with
                    | (q2, t3, Raise e) =>
                        (srv1, q2,
                         map Admin t1 ++ map Embed t2 ++ map Store t3, Crashed e)
                    | (q2, t3, Ok _) =>
                        match Collection.get_collection_info Qdrant
                                get_collection vector_store q2 with
                        | (q3, t4, Raise e) =>
                            (srv1, q3,
                             map Admin t1 ++ map Embed t2 ++ map Store t3
                             ++ map Admin t4, Crashed e)
                        | (q3, t4, Ok collection_info) =>
                            (srv1, q3,
                             map Admin t1 ++ map Embed t2 ++ map Store t3
                             ++ map Admin t4, Completed collection_info)
                        end
                    end
                end
            end
        end
    end.

End WithWorld.

Arguments Admin {Vec} _.
Arguments Embed {Vec} _.
Arguments Store {Vec} _.

End Ingestion.

(** ** A small world to run the ingestion on *)

Module Sample.

(** One PDF of two pages, the second of which is blank. *)
Definition sample_pages : list (gmap string string) :=
  [<["text" := string_of_list_ascii (repeat "a"%char 30)]> ∅; ∅].

Definition sample_glob (directory pattern : string) : list string :=
  if bool_decide (pattern = "*.pdf") then ["/data/manual.pdf"] else [].

(** A store that keeps the names of its collections. *)
Definition list_collections (q : list string) : list string * result (list string) :=
  (q, Ok q).
Definition add_collection (q : list string) (name : string)
    (vectors_config : Collection.VectorParams) : list string * result unit :=
  (name :: q, Ok ()).
Definition accept_points (q : list string) (name : string)
    (points : list (VectorStore.PointStruct nat)) : list string * result unit :=
  (q, Ok ()).
Definition describe_collection (q : list string) (name : string)
    : list string * result Collection.CollectionInfo :=
  (q, Ok (Collection.mkCollectionInfo (PyInt 1) (PyStr "green"))).


(** Pages given directly as their token lists. *)
Definition tokens_1000 : list Z := map Z.of_nat (seq 0 1000).
Definition tokens_30 : list Z := map Z.of_nat (seq 0 30).

(** The same page in two files, and a page too short to give a chunk. *)
Definition twin_a : Document :=
  new_Document (string_of_list_ascii (repeat "a"%char 30)) 1 "a.pdf" None.
Definition twin_b : Document :=
  new_Document (string_of_list_ascii (repeat "a"%char 30)) 7 "b.pdf" None.
Definition short_page : Document := new_Document "Chapter 1" 1 "a.pdf" None.

(** A tokenizer that refuses the end-of-text token, and a page that
    spells it. *)
Definition strict_encode (s : string) : result (list Z) :=
  if contains "<|endoftext|>" s then
    Raise (ValueError "Encountered text corresponding to disallowed special token")
  else Ok (byte_encode s).
Definition special_page : Document :=
  new_Document "The log ends with <|endoftext|> on every line." 2 "a.pdf" None.

(** A chunk with the two keys of the point id, and one without metadata. *)
Definition keyed_chunk : Chunk :=
  mkChunk "refunds"
    (<["content_hash" := PyStr "00ff"]> (<["chunk_index" := PyInt 0]> ∅)).
Definition bare_chunk : Chunk := mkChunk "refunds" ∅.

(** A store that is down. *)
Definition reject_points (q : list string) (name : string)
    (points : list (VectorStore.PointStruct nat)) : list string * result unit :=
  (q, Raise (ConnectError "connection refused")).

Definition sample_store : VectorStore.VectorStore :=
  VectorStore.mkVectorStore "pdf_chunks" 768.

(** A two-turn history, as the command-line client keeps it. *)
Definition sample_history : list (gmap string pyval) :=
  [RagPipeline.message (PyStr "user") (PyStr "What is the refund policy?");
   RagPipeline.message (PyStr "assistant") (PyStr "30 days (page 4).")].

End Sample.

(** * Properties *)

(** ** Slices and ranges *)

Section PyFacts.
Context {A : Type}.
Implicit Types l : list A.

Lemma len_nonneg l : 0 ≤ len l.
Proof. unfold len. lia. Qed.

(** With bounds [0 <= lo <= hi] a slice is a [take] of a [drop]. *)
Lemma slice_take_drop l lo hi :
  0 ≤ lo → lo ≤ hi →
  slice l lo hi = take (Z.to_nat (hi - lo)) (drop (Z.to_nat lo) l).
Proof.
  intros Hlo Hhi. unfold slice, slice_bound.
  destruct (Z.ltb_spec lo 0) as [?|_]; [lia|].
  destruct (Z.ltb_spec hi 0) as [?|_]; [lia|].
  destruct (Z.le_gt_cases (len l) lo) as [Hge|Hlt].
  - rewrite !drop_ge by (unfold len in *; lia). by rewrite !take_nil.
  - rewrite (Z.min_l lo) by lia.
    destruct (Z.le_gt_cases hi (len l)) as [Hh|Hh].
    + by rewrite Z.min_l by lia.
    + rewrite Z.min_r by lia.
      rewrite !take_ge; [done| |]; rewrite length_drop; unfold len in *; lia.
Qed.

Lemma slice_len l lo hi :
  0 ≤ lo → lo ≤ hi →
  len (slice l lo hi) = Z.min (hi - lo) (Z.max 0 (len l - lo)).
Proof.
  intros Hlo Hhi. rewrite slice_take_drop by done.
  unfold len. rewrite length_take, length_drop. lia.
Qed.
End PyFacts.

Lemma spaced_map_seq step s k j :
  spaced step (s + Z.of_nat j * step)
    (map (fun i : nat => s + Z.of_nat i * step) (seq j k)).
Proof.
  revert j. induction k as [|k IH]; intros j; simpl; [done|].
  split; [done|].
  replace (s + Z.of_nat j * step + step) with (s + Z.of_nat (S j) * step) by lia.
  apply IH.
Qed.

Lemma range_spaced stop step starts :
  range 0 stop step = Ok starts → spaced step 0 starts.
Proof.
  unfold range. destruct (step =? 0); [done|].
  intros [= <-]. apply (spaced_map_seq step 0 _ 0%nat).
Qed.

Lemma range_pos_ok stop step :
  step ≠ 0 → ∃ starts, range 0 stop step = Ok starts.
Proof.
  intros Hstep. unfold range.
  destruct (Z.eqb_spec step 0); [done|]. eauto.
Qed.

(** ** The window loop of [chunk_documents] *)

Section SlideFacts.
Variable token_ids : list Z.
Variable chunk_size : Z.
Hypothesis chunk_size_pos : 0 < chunk_size.

Lemma window_len start :
  0 ≤ start →
  len (window_at token_ids chunk_size start)
  = Z.min chunk_size (Z.max 0 (len token_ids - start)).
Proof.
  intros Hs. unfold window_at. rewrite slice_len by lia. f_equal. lia.
Qed.

(** Once a window is too short, every later window is too short as well,
    and nothing more is emitted. *)
Lemma slide_short step starts s chunk_index :
  0 < step → 0 ≤ s → spaced step s starts →
  len (window_at token_ids chunk_size s) < 20 →
  slide token_ids chunk_size starts chunk_index = [].
Proof.
  intros Hstep. revert s.
  induction starts as [|x rest IH]; intros s Hs Hsp Hshort; simpl; [done|].
  destruct Hsp as [-> Hsp]. fold (window_at token_ids chunk_size s).
  destruct (Z.ltb_spec (len (window_at token_ids chunk_size s)) 20) as [_|?];
    [|lia].
  apply (IH (s + step)); [lia|done|].
  rewrite window_len in * by lia. lia.
Qed.

(** The loop either emits nothing or starts with the window at the first
    offset. *)
Lemma slide_head step starts s chunk_index :
  0 < step → 0 ≤ s → spaced step s starts →
  slide token_ids chunk_size starts chunk_index = [] ∨
  ∃ tl, slide token_ids chunk_size starts chunk_index
        = mkEmitted s (window_at token_ids chunk_size s) chunk_index :: tl.
Proof.
  intros Hstep Hs Hsp. destruct starts as [|x rest]; simpl; [by left|].
  destruct Hsp as [-> Hsp]. fold (window_at token_ids chunk_size s).
  destruct (Z.ltb_spec (len (window_at token_ids chunk_size s)) 20)
    as [Hshort|_].
  - left. apply (slide_short step rest (s + step)); [done|lia|done|].
    rewrite window_len in * by lia. lia.
  - right. eauto.
Qed.

(** Two chunks emitted one after the other come from offsets [step]
    apart, and the earlier window did not reach the end of the tokens. *)
Lemma slide_adjacent step starts s chunk_index i a b :
  0 < step → 0 ≤ s → spaced step s starts →
  slide token_ids chunk_size starts chunk_index !! i = Some a →
  slide token_ids chunk_size starts chunk_index !! S i = Some b →
  0 ≤ em_start a ∧ em_start a + chunk_size < len token_ids ∧
  em_start b = em_start a + step ∧
  em_window a = window_at token_ids chunk_size (em_start a) ∧
  em_window b = window_at token_ids chunk_size (em_start b).
Proof.
  intros Hstep. revert s chunk_index i.
  induction starts as [|x rest IH]; intros s idx i Hs Hsp; simpl; [done|].
  destruct Hsp as [-> Hsp]. fold (window_at token_ids chunk_size s).
  destruct (Z.ltb_spec (len (window_at token_ids chunk_size s)) 20) as [_|_].
  { apply (IH (s + step)); [lia|done]. }
  destruct (Z.geb_spec (s + chunk_size) (len token_ids)) as [_|Hmore].
  { destruct i; done. }
  destruct i as [|i]; simpl.
  - intros [= <-] Hb. simpl.
    destruct (slide_head step rest (s + step) (idx + 1)) as [E|[tl E]];
      [done|lia|done| |]; rewrite E in Hb; [done|].
    injection Hb as <-. simpl. repeat split; [done|lia].
  - apply (IH (s + step)); [lia|done].
Qed.

(** [chunk_index] counts the emitted chunks, and every emitted window is
    the slice at its offset and has at least 20 tokens. *)
Lemma slide_index starts chunk_index i e :
  slide token_ids chunk_size starts chunk_index !! i = Some e →
  em_index e = chunk_index + Z.of_nat i ∧
  em_window e = window_at token_ids chunk_size (em_start e) ∧
  20 ≤ len (em_window e).
Proof.
  revert chunk_index i.
  induction starts as [|x rest IH]; intros idx i; simpl; [done|].
  destruct (Z.ltb_spec (len (slice token_ids x (x + chunk_size))) 20) as [_|Hlong].
  { apply IH. }
  destruct i as [|i]; simpl.
  - intros [= <-]. simpl. split; [lia|done].
  - destruct (x + chunk_size >=? len token_ids); [done|].
    intros He. apply IH in He. split; [lia|tauto].
Qed.
End SlideFacts.

(** ** [chunk_documents] *)

Section ChunkerFacts.
Variable encode : string -> list Z.
Variable decode : list Z -> string.

Lemma page_windows_total token_ids chunk_size chunk_overlap :
  chunk_size - chunk_overlap ≠ 0 →
  ∃ ws, page_windows token_ids chunk_size chunk_overlap = Ok ws.
Proof.
  intros Hstep. unfold page_windows.
  destruct (range_pos_ok (len token_ids) _ Hstep) as [starts ->]. simpl. eauto.
Qed.

Lemma page_windows_nil chunk_size chunk_overlap :
  chunk_size - chunk_overlap ≠ 0 →
  page_windows [] chunk_size chunk_overlap = Ok [].
Proof.
  intros Hstep. unfold page_windows, range.
  destruct (Z.eqb_spec (chunk_size - chunk_overlap) 0); [done|].
  replace (Z.to_nat _) with 0%nat; [done|].
  change (len []) with 0. destruct (Z.ltb_spec 0 (chunk_size - chunk_overlap)).
  - rewrite Z.div_small by lia. done.
  - rewrite Z.div_small by lia. done.
Qed.

(** With a non-zero step the outer loop appends the chunks of every page,
    in page order. *)
Lemma chunk_loop_pages documents chunk_size chunk_overlap all_chunks :
  chunk_size - chunk_overlap ≠ 0 →
  chunk_loop encode decode documents chunk_size chunk_overlap all_chunks
  = Ok (all_chunks ++
        concat (map (page_chunks encode decode chunk_size chunk_overlap) documents)).
Proof.
  intros Hstep. revert all_chunks.
  induction documents as [|d rest IH]; intros acc; simpl.
  { by rewrite app_nil_r. }
  unfold page_chunks at 1.
  destruct (Z.eqb_spec (len (encode (content d))) 0) as [Hempty|_].
  - assert (encode (content d) = []) as ->.
    { destruct (encode (content d)); [done|].
      unfold len in Hempty. simpl in Hempty. lia. }
    rewrite page_windows_nil by done. simpl. apply IH.
  - destruct (page_windows_total (encode (content d)) _ _ Hstep) as [ws ->].
    simpl. rewrite IH. by rewrite <- app_assoc.
Qed.

Lemma chunk_documents_pages documents chunk_size chunk_overlap :
  chunk_size - chunk_overlap ≠ 0 →
  chunk_documents encode decode documents chunk_size chunk_overlap
  = Ok (concat (map (page_chunks encode decode chunk_size chunk_overlap) documents)).
Proof. intros Hstep. unfold chunk_documents. by rewrite chunk_loop_pages. Qed.

(** The last [overlap] tokens of a full window are the first [overlap]
    tokens of the window [step] further on. *)
Lemma window_overlap (token_ids : list Z) (s c o : nat) :
  (o ≤ c)%nat → (s + c < length token_ids)%nat →
  let wa := take c (drop s token_ids) in
  let wb := take c (drop (s + (c - o)) token_ids) in
  length wa = c ∧ (o ≤ length wb)%nat ∧
  drop (length wa - o) wa = take o wb.
Proof.
  intros Hoc Hlen wa wb.
  assert (length wa = c) as Hwa.
  { unfold wa. rewrite length_take, length_drop. lia. }
  split; [done|]. split.
  { unfold wb. rewrite length_take, length_drop. lia. }
  rewrite Hwa. unfold wa, wb.
  rewrite take_take, Nat.min_l by lia.
  replace c with ((c - o) + o)%nat at 2 by lia.
  rewrite <- take_drop_commute, drop_drop. done.
Qed.

(** C1. Overlap coverage: with [0 < overlap < chunk_size],
    [chunk_documents] returns the chunks of its pages in order, the
    chunks of a page are built from the windows that the loop emits for
    it, and of any two windows emitted one after the other for the same
    page the last [overlap] tokens of the earlier one are the first
    [overlap] tokens of the later one. *)
Theorem overlap_coverage documents chunk_size chunk_overlap :
  0 < chunk_overlap < chunk_size →
  chunk_documents encode decode documents chunk_size chunk_overlap
  = Ok (concat (map (page_chunks encode decode chunk_size chunk_overlap) documents)) ∧
  ∀ document, ∃ ws,
    page_windows (encode (content document)) chunk_size chunk_overlap = Ok ws ∧
    page_chunks encode decode chunk_size chunk_overlap document
    = map (make_chunk decode document) ws ∧
    ∀ i a b, ws !! i = Some a → ws !! S i = Some b →
      (Z.to_nat chunk_overlap ≤ length (em_window a))%nat ∧
      (Z.to_nat chunk_overlap ≤ length (em_window b))%nat ∧
      drop (length (em_window a) - Z.to_nat chunk_overlap) (em_window a)
      = take (Z.to_nat chunk_overlap) (em_window b).
Proof.
  intros Hov. split; [apply chunk_documents_pages; lia|].
  intros d. unfold page_chunks.
  destruct (page_windows (encode (content d)) chunk_size chunk_overlap)
    as [ws|e] eqn:Hws.
  2:{ destruct (page_windows_total (encode (content d)) chunk_size chunk_overlap)
        as [ws' E]; [lia|congruence]. }
  exists ws. split; [done|]. split; [done|].
  intros i a b Ha Hb. set (o := Z.to_nat chunk_overlap).
  unfold page_windows in Hws.
  destruct (range 0 (len (encode (content d))) (chunk_size - chunk_overlap))
    as [starts|] eqn:Hr; [|done].
  apply range_spaced in Hr. injection Hws as <-.
  destruct (slide_adjacent (encode (content d)) chunk_size ltac:(lia)
              (chunk_size - chunk_overlap) starts 0 0 i a b
              ltac:(lia) ltac:(lia) Hr Ha Hb)
    as (Hs & Hend & Hnext & Hwa & Hwb).
  rewrite Hwb, Hwa, Hnext. unfold window_at.
  rewrite !slice_take_drop by lia.
  replace (Z.to_nat (em_start a + chunk_size - em_start a))
    with (Z.to_nat chunk_size) by lia.
  replace (Z.to_nat (em_start a + (chunk_size - chunk_overlap) + chunk_size
                     - (em_start a + (chunk_size - chunk_overlap))))
    with (Z.to_nat chunk_size) by lia.
  replace (Z.to_nat (em_start a + (chunk_size - chunk_overlap)))
    with (Z.to_nat (em_start a) + (Z.to_nat chunk_size - o))%nat by (unfold o; lia).
  destruct (window_overlap (encode (content d)) (Z.to_nat (em_start a))
              (Z.to_nat chunk_size) o) as (H1 & H2 & H3).
  { unfold o. lia. }
  { unfold len in Hend. lia. }
  cbv zeta in H1, H2, H3. rewrite H1 in *. split; [unfold o; lia|]. split; [lia|done].
Qed.

(** C7. Minimum-content threshold and [chunk_index]: whenever the window
    loop of a page returns, its i-th emitted chunk carries
    [chunk_index = i] (so the indices are 0, 1, ..., m-1 without gaps)
    and is decoded from a window of at least 20 tokens; the loop returns
    for every non-zero step, and [chunk_documents] then returns the chunks
    of its pages, page after page. *)
Theorem chunk_index_dense documents document chunk_size chunk_overlap :
  (chunk_size - chunk_overlap ≠ 0 →
   chunk_documents encode decode documents chunk_size chunk_overlap
   = Ok (concat (map (page_chunks encode decode chunk_size chunk_overlap) documents)) ∧
   ∃ ws, page_windows (encode (content document)) chunk_size chunk_overlap = Ok ws ∧
         page_chunks encode decode chunk_size chunk_overlap document
         = map (make_chunk decode document) ws) ∧
  ∀ ws, page_windows (encode (content document)) chunk_size chunk_overlap = Ok ws →
    ∀ (i : nat) e, ws !! i = Some e →
      em_index e = Z.of_nat i ∧
      metadata (make_chunk decode document e) !! "chunk_index"
      = Some (PyInt (Z.of_nat i)) ∧
      text (make_chunk decode document e) = decode (em_window e) ∧
      em_window e
      = window_at (encode (content document)) chunk_size (em_start e) ∧
      20 ≤ len (em_window e).
Proof.
  split.
  - intros Hstep. split; [by apply chunk_documents_pages|].
    destruct (page_windows_total (encode (content document)) _ _ Hstep) as [ws E].
    exists ws. split; [done|]. unfold page_chunks. by rewrite E.
  - intros ws Hws i e He. unfold page_windows in Hws.
    destruct (range 0 _ _) as [starts|]; [|done].
    injection Hws as <-.
    apply slide_index in He as (Hi & Hw & Hlen).
    rewrite Z.add_0_l in Hi. repeat split; [done| |done..].
    simpl. rewrite Hi. done.
Qed.

Lemma slide_cons token_ids chunk_size start rest chunk_index :
  slide token_ids chunk_size (start :: rest) chunk_index
  = let window := slice token_ids start (start + chunk_size) in
    if len window <? 20 then slide token_ids chunk_size rest chunk_index
    else
      mkEmitted start window chunk_index ::
      (if start + chunk_size >=? len token_ids then []
       else slide token_ids chunk_size rest (chunk_index + 1)).
Proof. reflexivity. Qed.

(** A slice whose upper bound lies beyond the end is clipped to the
    end: nothing is padded. *)
Lemma slice_clip (l : list Z) lo hi :
  0 ≤ lo → lo ≤ len l → len l ≤ hi → slice l lo hi = slice l lo (len l).
Proof.
  intros Hlo Hle Hhi. rewrite !slice_take_drop by lia.
  rewrite !take_ge; [done| |]; rewrite length_drop; unfold len in *; lia.
Qed.

(** C2. Sliding-window scenario: a page of exactly 1000 tokens chunked
    with [chunk_size = 512] and [chunk_overlap = 50] gives exactly three
    chunks, decoded from the token ranges [0,512), [462,974) and
    [924,1000), with indices 0, 1, 2; the windows have 512, 512 and 76
    tokens. *)
Theorem sliding_window_scenario document :
  len (encode (content document)) = 1000 →
  let t := encode (content document) in
  let ws := [mkEmitted 0 (slice t 0 512) 0;
             mkEmitted 462 (slice t 462 974) 1;
             mkEmitted 924 (slice t 924 1000) 2] in
  page_windows t 512 50 = Ok ws ∧
  chunk_documents encode decode [document] 512 50
  = Ok (map (make_chunk decode document) ws) ∧
  len (slice t 0 512) = 512 ∧ len (slice t 462 974) = 512 ∧
  len (slice t 924 1000) = 76.
Proof.
  intros Hlen t ws. fold t in Hlen.
  assert (page_windows t 512 50 = Ok ws) as Hws.
  { unfold page_windows. rewrite Hlen.
    change (range 0 1000 (512 - 50)) with (Ok (A:=list Z) [0; 462; 924]).
    change (Ok [0; 462; 924] ≫= _)
      with (Ok (slide t 512 [0; 462; 924] 0)).
    f_equal. rewrite !slide_cons. cbv zeta.
    rewrite !slice_len, Hlen by lia.
    change (0 + 512) with 512. change (462 + 512) with 974.
    rewrite (slice_clip t 924 (924 + 512)) by lia. rewrite Hlen.
    reflexivity. }
  split; [done|]. split.
  - unfold chunk_documents, chunk_loop. fold t. rewrite Hlen, Hws.
    reflexivity.
  - rewrite !slice_len, Hlen by lia. done.
Qed.
End ChunkerFacts.

(** ** [Document] and its content hash *)

Lemma post_init_empty_hash c p s :
  post_init (mkDocument c p s "")
  = mkDocument c p s (Hashlib.sha256_hexdigest (Hashlib.utf8 c)).
Proof. reflexivity. Qed.

Lemma post_init_given_hash c p s h :
  h ≠ "" → post_init (mkDocument c p s h) = mkDocument c p s h.
Proof. intros Hh. unfold post_init. simpl. by rewrite bool_decide_eq_false_2. Qed.

Lemma parse_pages_hash strip pdf_filename pages page_index documents :
  Forall hash_of_content documents →
  Forall hash_of_content (parse_pages strip pdf_filename page_index pages documents).
Proof.
  revert page_index documents.
  induction pages as [|page_data rest IH]; intros page_index documents Hdocs;
    simpl; [done|].
  case_bool_decide; apply IH; [done|].
  apply Forall_app. split; [done|]. by apply Forall_singleton.
Qed.

(** C9 (as amended). The constructor computes [content_hash] as the SHA-256
    hex digest of the UTF-8 bytes of [content] exactly when no (or an
    empty) [content_hash] is passed, which is how [parse_pdf] builds every
    page; a non-empty [content_hash] passed to the constructor is kept as
    it is. *)
Theorem content_hash_when_omitted content page_number source :
  hash_of_content (new_Document content page_number source None) ∧
  hash_of_content (new_Document content page_number source (Some "")) ∧
  (∀ h, h ≠ "" →
     content_hash (new_Document content page_number source (Some h)) = h) ∧
  (∀ strip pdf_filename pages,
     Forall hash_of_content (parse_pdf strip pdf_filename pages)).
Proof.
  split; [reflexivity|]. split; [reflexivity|]. split.
  - intros h Hh. unfold new_Document. simpl. by rewrite post_init_given_hash.
  - intros strip pdf_filename pages. by apply parse_pages_hash.
Qed.

Lemma content_hash_when_omitted_witness :
  content_hash (new_Document "abc" 1 "a.pdf" (Some "deadbeef")) = "deadbeef".
Proof.
  apply (content_hash_when_omitted "abc" 1 "a.pdf"). done.
Defined.

(** C9 (as stated) fails: a page built with an explicit [content_hash]
    keeps it, whatever its content is. *)
Lemma content_hash_set_independently :
  let d := new_Document "abc" 1 "a.pdf" (Some "deadbeef") in
  content_hash d = "deadbeef" ∧
  Hashlib.sha256_hexdigest (Hashlib.utf8 (content d))
  = "ba7816bf8f01cfea414140de5dae2223b00361a396177a9cb410ff61f20015ad" ∧
  ¬ hash_of_content d.
Proof.
  split; [reflexivity|]. split; [by vm_compute|].
  unfold hash_of_content. vm_compute. discriminate.
Qed.

(** ** The digests, checked against the values the Python library gives *)

Example sha256_abc :
  Hashlib.sha256_hexdigest (Hashlib.utf8 "abc")
  = "ba7816bf8f01cfea414140de5dae2223b00361a396177a9cb410ff61f20015ad".
Proof. by vm_compute. Qed.

Example sha256_empty :
  Hashlib.sha256_hexdigest []
  = "e3b0c44298fc1c149afbf4c8996fb92427ae41e4649b934ca495991b7852b855".
Proof. by vm_compute. Qed.

Example sha256_two_blocks :
  Hashlib.sha256_hexdigest (repeat 97 100)
  = "2816597888e4a0d3a36b82b83316ab32680eb8f00f8cd3b904d681246d285a0e".
Proof. by vm_compute. Qed.

Example sha1_abc :
  Hashlib.hex (Hashlib.sha1_digest (Hashlib.utf8 "abc"))
  = "a9993e364706816aba3e25717850c26c9cd0d89d".
Proof. by vm_compute. Qed.

Example uuid5_python_org :
  Hashlib.uuid5 Hashlib.NAMESPACE_DNS "python.org"
  = "886313e1-3b8a-5372-9b90-0c9aee199e5d".
Proof. by vm_compute. Qed.

(** ** Point identifiers *)

Lemma hex_digit_is_hex d :
  existsb (Ascii.eqb (Hashlib.hex_digit d)) Hashlib.hex_digits = true.
Proof.
  unfold Hashlib.hex_digit.
  destruct (Z.to_nat d) as [|[|[|[|[|[|[|[|[|[|[|[|[|[|[|[|n]]]]]]]]]]]]]]]];
    try reflexivity.
  simpl. by destruct n.
Qed.

(** A hex dump is a string of hexadecimal digits; so is every SHA-256
    [hexdigest()]. *)
Lemma hex_is_hex bs : Hashlib.is_hex (Hashlib.hex bs) = true.
Proof.
  unfold Hashlib.is_hex, Hashlib.hex.
  rewrite list_ascii_of_string_of_list_ascii.
  induction bs as [|b bs IH]; [done|].
  cbn [map concat Hashlib.hex_byte app forallb].
  by rewrite !hex_digit_is_hex, IH.
Qed.

Lemma sha256_hexdigest_is_hex data :
  Hashlib.is_hex (Hashlib.sha256_hexdigest data) = true.
Proof. apply hex_is_hex. Qed.

(** So the pages that [parse_pdf] builds carry hexadecimal hashes. *)
Lemma parse_pdf_hash_is_hex strip pdf_filename pages :
  Forall (fun d => Hashlib.is_hex (content_hash d) = true)
    (parse_pdf strip pdf_filename pages).
Proof.
  eapply Forall_impl; [apply parse_pages_hash; constructor|].
  intros d Hd. simpl. rewrite Hd. apply sha256_hexdigest_is_hex.
Qed.

Lemma is_hex_cons c s :
  Hashlib.is_hex (String c s) = true → c ≠ "_"%char ∧ Hashlib.is_hex s = true.
Proof.
  unfold Hashlib.is_hex. simpl. intros [Hc Hs]%andb_prop. split; [|done].
  intros ->. discriminate.
Qed.

Lemma append_nil_l (r : string) : "" +:+ r = r.
Proof. reflexivity. Qed.

Lemma append_cons_l c (s r : string) : String c s +:+ r = String c (s +:+ r).
Proof. reflexivity. Qed.

(** The separator splits a name in one way only when the hash has no
    underscore. *)
Lemma name_split h1 h2 r1 r2 :
  Hashlib.is_hex h1 = true → Hashlib.is_hex h2 = true →
  h1 +:+ "_" +:+ r1 = h2 +:+ "_" +:+ r2 → h1 = h2 ∧ r1 = r2.
Proof.
  revert h2. induction h1 as [|c1 h1 IH]; intros [|c2 h2] H1 H2;
    rewrite ?append_cons_l, ?append_nil_l.
  - by intros [= ->].
  - intros [= <- _]. by apply is_hex_cons in H2 as [? _].
  - intros [= -> _]. by apply is_hex_cons in H1 as [? _].
  - intros [= -> E]. apply is_hex_cons in H1 as [_ H1].
    apply is_hex_cons in H2 as [_ H2].
    destruct (IH h2 H1 H2 E) as [-> ->]. done.
Qed.

Lemma build_points_spec {Vec} (pairs : list (Chunk * Vec)) points trace ps :
  Forall2 (fun ce p => VectorStore.build_point Vec ce.1 ce.2 = Ok p) pairs ps →
  VectorStore.build_points Vec pairs points trace
  = (trace ++ map VectorStore.PointBuilt ps, Ok (points ++ ps)).
Proof.
  intros HF. revert points trace.
  induction HF as [|[c e] p pairs ps Hp _ IH]; intros points trace; simpl.
  - by rewrite !app_nil_r.
  - simpl in Hp. rewrite Hp, IH, <- !app_assoc. done.
Qed.

(** C3. Point-id determinism and distinctness: the point that
    [upsert_chunks] builds for a chunk, and sends to the store, has the
    UUIDv5 (namespace URL) of ["{content_hash}_{chunk_index}"] as its id,
    a function of that pair alone; for hexadecimal hashes two pairs with
    the same name are the same pair, so two pairs with the same id are the
    same pair or a collision of UUIDv5 on two different names. *)
Theorem point_id_deterministic_distinct (h1 h2 : string) (i1 i2 : Z) :
  Hashlib.is_hex h1 = true → Hashlib.is_hex h2 = true →
  (∀ Vec Qdrant client_upsert (self : VectorStore.VectorStore)
     (chunk : Chunk) (embedding : Vec) (q : Qdrant),
     Chunker.metadata chunk !! "content_hash" = Some (PyStr h1) →
     Chunker.metadata chunk !! "chunk_index" = Some (PyInt i1) →
     let p :=
       VectorStore.mkPointStruct
         (Hashlib.uuid5 Hashlib.NAMESPACE_URL (h1 +:+ "_" +:+ pretty i1))
         embedding
         (<["text" := PyStr (Chunker.text chunk)]> (Chunker.metadata chunk)) in
     VectorStore.build_point Vec chunk embedding = Ok p ∧
     VectorStore.upsert_chunks Vec Qdrant client_upsert self [chunk] [embedding] q
     = (let '(q', r) :=
          client_upsert q (VectorStore.collection_name self) [p] in
        (q',
         [VectorStore.PointBuilt p;
          VectorStore.UpsertCall (VectorStore.collection_name self) [p]],
         match r with
         | Ok _ => Ok ()
         | Raise e => Raise e
         end))) ∧
  (VectorStore.point_name (PyStr h1) (PyInt i1)
   = VectorStore.point_name (PyStr h2) (PyInt i2) → h1 = h2 ∧ i1 = i2) ∧
  (VectorStore.point_id (PyStr h1) (PyInt i1)
   = VectorStore.point_id (PyStr h2) (PyInt i2) →
   (h1 = h2 ∧ i1 = i2) ∨
   (VectorStore.point_name (PyStr h1) (PyInt i1)
    ≠ VectorStore.point_name (PyStr h2) (PyInt i2) ∧
    Hashlib.uuid5 Hashlib.NAMESPACE_URL (VectorStore.point_name (PyStr h1) (PyInt i1))
    = Hashlib.uuid5 Hashlib.NAMESPACE_URL (VectorStore.point_name (PyStr h2) (PyInt i2)))).
Proof.
  intros H1 H2.
  assert (VectorStore.point_name (PyStr h1) (PyInt i1)
          = VectorStore.point_name (PyStr h2) (PyInt i2) → h1 = h2 ∧ i1 = i2) as Hinj.
  { unfold VectorStore.point_name, str. intros E.
    apply name_split in E as [-> E]; [|done..].
    split; [done|]. by apply (inj pretty). }
  split; [|split; [done|]].
  - intros Vec Qdrant client_upsert self chunk embedding q Hh Hi p.
    assert (VectorStore.build_point Vec chunk embedding = Ok p) as Hp.
    { unfold VectorStore.build_point, getitem. rewrite Hh, Hi. reflexivity. }
    split; [exact Hp|].
    unfold VectorStore.upsert_chunks.
    change (negb (len [chunk] =? len [embedding])) with false. cbv iota.
    change (zip [chunk] [embedding]) with [(chunk, embedding)].
    rewrite (build_points_spec [(chunk, embedding)] [] [] [p])
      by (by constructor).
    change (range 0 (len ([] ++ [p])) 100) with (Ok (A:=list Z) [0]).
    cbn [VectorStore.upsert_batches app map].
    change (slice [p] 0 (0 + 100)) with [p].
    by destruct (client_upsert q (VectorStore.collection_name self) [p])
      as [q' [[]|e]].
  - intros E.
    destruct (decide (VectorStore.point_name (PyStr h1) (PyInt i1)
                      = VectorStore.point_name (PyStr h2) (PyInt i2))) as [En|En].
    + left. by apply Hinj.
    + right. done.
Qed.

Lemma point_id_deterministic_distinct_witness :
  let h := "ba7816bf8f01cfea414140de5dae2223b00361a396177a9cb410ff61f20015ad" in
  let chunk :=
    mkChunk "refunds"
      (<["content_hash" := PyStr h]> (<["chunk_index" := PyInt 12]> ∅)) in
  Hashlib.is_hex h = true ∧
  ∃ p, VectorStore.build_point nat chunk 7%nat = Ok p ∧
       VectorStore.id p = "23e93e96-77e1-5aa9-a5bf-9d4f5dc39e31".
Proof.
  intros h chunk.
  assert (Hashlib.is_hex h = true) as Hh by reflexivity.
  split; [exact Hh|].
  eexists. split.
  - exact (proj1 (proj1 (point_id_deterministic_distinct h h 12 12 Hh Hh)
                    nat nat (fun q _ _ => (S q, Ok ()))
                    (VectorStore.mkVectorStore "pdf_chunks" 768) chunk 7%nat 0%nat
                    eq_refl eq_refl)).
  - vm_compute. reflexivity.
Defined.

(** ** [upsert_chunks] *)

(** C5. Upsert length validation: with [len(chunks) != len(embeddings)]
    the call raises the [ValueError] at once: no point record has been
    built, [client.upsert] has not been called, and the store is
    untouched. *)
Theorem upsert_length_mismatch Vec Qdrant client_upsert
    (self : VectorStore.VectorStore) (chunks : list Chunk)
    (embeddings : list Vec) (q : Qdrant) :
  len chunks ≠ len embeddings →
  VectorStore.upsert_chunks Vec Qdrant client_upsert self chunks embeddings q
  = (q, [],
     Raise (ValueError ("Mismatch: " +:+ pretty (len chunks) +:+ " chunks but "
                        +:+ pretty (len embeddings) +:+ " embeddings"))).
Proof.
  intros Hne. unfold VectorStore.upsert_chunks.
  destruct (Z.eqb_spec (len chunks) (len embeddings)); [done|]. reflexivity.
Qed.

(** ** [embed_texts] *)

Section EmbedderFacts.
Import Embedder.
Variable Vec : Type.
Variable Server : Type.
Variable post : Server → EmbedRequest → Server * result (list Vec).
(** What it means for a vector to be the embedding of a text. *)
Variable embeds : string → Vec → Prop.
(** The server answers every request with one vector per input, in order. *)
Hypothesis post_ok : ∀ srv request, ∃ srv' vs,
  post srv request = (srv', Ok vs) ∧ Forall2 embeds (inputs request) vs.

Variable self : EmbeddingClient.
Variable prefixed_texts : list string.


(** The loop sends one request per offset, threads the server through the
    requests, and appends the answers. *)
Lemma embed_batches_ok starts all_embeddings sent srv :
  ∃ srv' out,
    embed_batches Vec Server post self prefixed_texts starts
      all_embeddings sent srv
    = (srv', sent ++ map (request_at self prefixed_texts) starts,
       Ok (all_embeddings ++ out)) ∧
    srv' = foldl (fun s r => (post s r).1) srv
             (map (request_at self prefixed_texts) starts) ∧
    Forall2 embeds (concat (map (batch_at self prefixed_texts) starts)) out.
Proof.
  revert all_embeddings sent srv.
  induction starts as [|i rest IH]; intros acc sent srv; simpl.
  - exists srv, []. by rewrite !app_nil_r.
  - fold (batch_at self prefixed_texts i).
    fold (request_at self prefixed_texts i).
    destruct (post_ok srv (request_at self prefixed_texts i)) as (srv1 & vs & E & Hvs).
    rewrite E.
    destruct (IH (acc ++ vs) (sent ++ [request_at self prefixed_texts i]) srv1)
      as (srv' & out & -> & -> & Hout).
    exists (foldl (fun s r => (post s r).1) srv1
              (map (request_at self prefixed_texts) rest)), (vs ++ out).
    rewrite <- !app_assoc. split; [done|]. split; [done|].
    by apply Forall2_app.
Qed.

Hypothesis batch_size_pos : 1 ≤ batch_size self.


Lemma batch_at_take_drop (i : nat) :
  (batch_at self prefixed_texts) (0 + Z.of_nat i * batch_size self)
  = take (Z.to_nat (batch_size self))
      (drop (i * Z.to_nat (batch_size self)) prefixed_texts).
Proof.
  unfold batch_at. rewrite slice_take_drop by lia. f_equal; [lia|f_equal; lia].
Qed.

(** The batches from offset [j] on make up the rest of the list. *)
Lemma batches_concat k j :
  len prefixed_texts ≤ Z.of_nat (j + k) * batch_size self →
  concat (map (batch_at self prefixed_texts) (offsets self j k))
  = drop (j * Z.to_nat (batch_size self)) prefixed_texts.
Proof.
  revert j. induction k as [|k IH]; intros j Hcover; simpl.
  - rewrite drop_ge; [done|]. unfold len in Hcover. nia.
  - rewrite batch_at_take_drop. fold (offsets self (S j) k).
    rewrite IH by (replace (S j + k)%nat with (j + S k)%nat by lia; done).
    replace (S j * Z.to_nat (batch_size self))%nat
      with (j * Z.to_nat (batch_size self)
            + Z.to_nat (batch_size self))%nat by lia.
    rewrite <- drop_drop. apply take_drop.
Qed.

(** Every batch is non-empty and has at most [batch_size] texts. *)
Lemma batches_size k j :
  Z.of_nat (j + k) * batch_size self
  < len prefixed_texts + batch_size self →
  Forall (fun i => 1 ≤ len (batch_at self prefixed_texts i) ≤ batch_size self)
    (offsets self j k).
Proof.
  intros Hlast. apply Forall_forall. intros x Hx.
  apply list_elem_of_fmap in Hx as (i & -> & Hi).
  apply elem_of_seq in Hi.
  unfold batch_at. rewrite slice_len by lia.
  assert (Z.of_nat i * batch_size self + batch_size self
          ≤ Z.of_nat (j + k) * batch_size self) by nia.
  lia.
Qed.

Lemma embed_range :
  let count := (len prefixed_texts + batch_size self - 1)
               `div` batch_size self in
  range 0 (len prefixed_texts) (batch_size self)
  = Ok (offsets self 0 (Z.to_nat count)) ∧
  0 ≤ count ∧
  len prefixed_texts ≤ count * batch_size self
  < len prefixed_texts + batch_size self.
Proof.
  intros count. pose proof (len_nonneg prefixed_texts) as Hn.
  split.
  { unfold range.
    destruct (Z.eqb_spec (batch_size self) 0); [lia|].
    destruct (Z.ltb_spec 0 (batch_size self)); [|lia].
    unfold offsets, count. by rewrite Z.sub_0_r. }
  pose proof (Z.div_mod (len prefixed_texts + batch_size self - 1)
                (batch_size self) ltac:(lia)) as Hdm.
  pose proof (Z.mod_pos_bound (len prefixed_texts + batch_size self - 1)
                (batch_size self) ltac:(lia)) as Hmod.
  fold count in Hdm. split; [apply Z.div_pos; lia|]. nia.
Qed.
End EmbedderFacts.

(** C4. Embedding batch integrity: for a batch size [B >= 1] and a server
    that answers every request with one vector per input in order,
    [embed_texts] on [N] texts issues exactly [ceil(N / B)] requests, one
    after the other; their inputs, concatenated, are the prefixed texts in
    order; every request carries between 1 and [B] texts; the result is
    [N] vectors, the i-th one for the i-th text. For [N = 0] no request is
    issued and the result is the empty list. *)
Theorem embed_batch_integrity Vec Server post (embeds : string → Vec → Prop)
    (self : Embedder.EmbeddingClient) (texts : list string) (prefix : string)
    (srv : Server) :
  1 ≤ Embedder.batch_size self →
  (∀ srv request, ∃ srv' vs,
     post srv request = (srv', Ok vs) ∧
     Forall2 embeds (Embedder.inputs request) vs) →
  ∃ srv' sent out,
    Embedder.embed_texts Vec Server post self texts prefix srv
    = (srv', sent, Ok out) ∧
    srv' = foldl (fun s r => (post s r).1) srv sent ∧
    len sent = (len texts + Embedder.batch_size self - 1)
               `div` Embedder.batch_size self ∧
    concat (map Embedder.inputs sent) = map (fun text => prefix +:+ text) texts ∧
    Forall (fun r => Embedder.url r = Embedder.base_url self +:+ "/embed" ∧
                     1 ≤ len (Embedder.inputs r) ≤ Embedder.batch_size self) sent ∧
    Forall2 embeds (map (fun text => prefix +:+ text) texts) out ∧
    len out = len texts ∧
    (texts = [] → sent = [] ∧ out = []).
Proof.
  intros HB Hpost. unfold Embedder.embed_texts.
  set (prefixed := map (fun text => prefix +:+ text) texts).
  destruct (Z.eqb_spec (Embedder.batch_size self) 0); [lia|].
  destruct (embed_range self prefixed HB) as (-> & Hcount0 & Hcover & Hlast).
  set (count := (len prefixed + Embedder.batch_size self - 1)
                `div` Embedder.batch_size self) in *.
  set (starts := Embedder.offsets self 0 (Z.to_nat count)).
  destruct (embed_batches_ok Vec Server post embeds Hpost self prefixed
              starts [] [] srv)
    as (srv' & out & -> & Hsrv & Hout).
  rewrite !app_nil_l in *.
  assert (concat (map (Embedder.batch_at self prefixed) starts) = prefixed) as Hcat.
  { unfold starts. rewrite (batches_concat self prefixed HB (Z.to_nat count) 0).
    - done.
    - rewrite Nat.add_0_l, Z2Nat.id by done. lia. }
  rewrite Hcat in Hout.
  assert (len prefixed = len texts) as Hlen.
  { unfold prefixed, len. by rewrite length_map. }
  eexists srv', _, out. split; [done|]. split; [done|]. split.
  { unfold len. rewrite length_map. unfold starts, Embedder.offsets.
    rewrite length_map, length_seq.
    rewrite Z2Nat.id by done. unfold count. by rewrite Hlen. }
  split.
  { etrans; [|exact Hcat]. f_equal. by rewrite <- list_fmap_compose. }
  split.
  { apply Forall_fmap.
    eapply Forall_impl;
      [apply (batches_size self prefixed HB (Z.to_nat count) 0)|].
    - rewrite Nat.add_0_l, Z2Nat.id by done. lia.
    - intros i Hi. simpl. done. }
  split; [done|]. split.
  { apply Forall2_length in Hout. unfold len in *. lia. }
  intros ->. subst prefixed. simpl in *. split.
  - unfold starts, count. change (len []) with 0.
    rewrite Z.div_small by lia. done.
  - by apply Forall2_nil_inv_l in Hout.
Qed.

(** ** [build_prompt] and [query] *)

Section PromptFacts.
Import RagPipeline.
Context `{Backends}.

Lemma context_parts_lookup (results : list (ScoredPoint Float)) i (k : nat) chunk :
  results !! k = Some chunk →
  context_parts i results !! k
  = Some ("[" +:+ pretty (i + Z.of_nat k) +:+ "] (Page "
          +:+ str (get (payload chunk) "page_number" (PyStr "unknown")) +:+ "): "
          +:+ str (get (payload chunk) "text" (PyStr ""))).
Proof.
  revert i k. induction results as [|c rest IH]; intros i k; [done|].
  destruct k as [|k]; simpl.
  - intros [= ->]. by rewrite Z.add_0_r.
  - intros Hk. rewrite (IH (i + 1) k Hk). do 4 f_equal. lia.
Qed.

Lemma context_parts_length (results : list (ScoredPoint Float)) i :
  length (context_parts i results) = length results.
Proof.
  revert i. induction results as [|c rest IH]; intros i; simpl; [done|].
  by rewrite IH.
Qed.

Lemma build_prompt_eq question (results : list (ScoredPoint Float)) history :
  build_prompt question results history
  = message (PyStr "system") (PyStr system_prompt)
    :: history_messages (default [] history)
    ++ [message (PyStr "user") (PyStr (user_message question results))].
Proof. by destruct history as [[|msg rest]|]. Qed.

Lemma join_concat sep parts : join sep parts = String.concat sep parts.
Proof.
  induction parts as [|p ps IH]; [done|].
  destruct ps as [|p' ps]; [done|].
  change (join sep (p :: p' :: ps)) with (p +:+ sep +:+ join sep (p' :: ps)).
  by rewrite IH.
Qed.

Lemma context_parts_imap (results : list (ScoredPoint Float)) i :
  context_parts i results
  = imap (fun (k : nat) chunk =>
            "[" +:+ pretty (Z.of_nat k + i) +:+ "] (Page "
            +:+ str (default (PyStr "unknown") (payload chunk !! "page_number"))
            +:+ "): "
            +:+ str (default (PyStr "") (payload chunk !! "text"))) results.
Proof.
  revert i. induction results as [|c rest IH]; intros i; [done|].
  cbn [context_parts]. rewrite imap_cons. refine (f_equal2 cons _ _).
  - unfold get.
    destruct (payload c !! "page_number"), (payload c !! "text"); reflexivity.
  - rewrite IH. apply imap_ext. intros k chunk _. unfold compose.
    by replace (Z.of_nat k + (i + 1)) with (Z.of_nat (S k) + i) by lia.
Qed.

(** C6. Prompt assembly: [build_prompt] returns exactly the dict of the
    system instruction, then for every history entry in order the dict of
    its role and content, then one user dict: [1 + len(history) + 1]
    messages, each written out below key by key. The content of the user
    message is ["Context:"], a line feed, the results joined by a blank
    line (two line feeds), each result being ["[k] (Page p): text"] with
    [k] counted from 1, then a blank line, ["Question: "] and the question,
    a blank line, and the citation reminder. The system instruction
    holds the three directions. With no search result the context block is
    empty, and [query] goes on to the generation call with that prompt: it
    returns the generated answer with no sources, and fails only if the
    generation call does. *)
Theorem prompt_assembly (self : RAGPipeline) question
    (results : list (ScoredPoint Float)) history :
  build_prompt question results history
  = <["role" := PyStr "system"]> (<["content" := PyStr system_prompt]> ∅)
    :: map (fun msg : gmap string pyval =>
              <["role" := default (PyStr "user") (msg !! "role")]>
              (<["content" := default (PyStr "") (msg !! "content")]> ∅))
         (default [] history)
    ++ [<["role" := PyStr "user"]>
        (<["content" :=
             PyStr ("Context:" +:+ String "010"%char ""
                    +:+ String.concat (String "010"%char (String "010"%char ""))
                          (imap (fun (k : nat) chunk =>
                                   "[" +:+ pretty (Z.of_nat k + 1) +:+ "] (Page "
                                   +:+ str (default (PyStr "unknown")
                                              (payload chunk !! "page_number"))
                                   +:+ "): "
                                   +:+ str (default (PyStr "")
                                              (payload chunk !! "text")))
                             results)
                    +:+ String "010"%char (String "010"%char "")
                    +:+ "Question: " +:+ question
                    +:+ String "010"%char (String "010"%char "")
                    +:+ "Answer based on the context above. Cite page numbers.")]>
         ∅)] ∧
  (∀ n, str (PyInt n) = pretty n) ∧ (∀ s, str (PyStr s) = s) ∧
  length (build_prompt question results history)
  = (1 + length (default [] history) + 1)%nat ∧
  String.index 0 "based on the provided context" system_prompt ≠ None ∧
  String.index 0 "Always cite which page numbers" system_prompt ≠ None ∧
  String.index 0 "say so honestly" system_prompt ≠ None ∧
  (∀ w w1 w2 query_embedding more,
     post_embed w (embedding_url (config self) +:+ "/embed")
       ["search_query: " +:+ question]
     = (w1, Ok (query_embedding :: more)) →
     query_points w1 (qdrant_collection (config self)) query_embedding
       (rag_top_k (config self))
     = (w2, Ok []) →
     let url := vllm_url (config self) +:+ "/v1/chat/completions" in
     let request :=
       mkChatCompletionRequest (vllm_model (config self))
         (<["role" := PyStr "system"]> (<["content" := PyStr system_prompt]> ∅)
          :: map (fun msg : gmap string pyval =>
                    <["role" := default (PyStr "user") (msg !! "role")]>
                    (<["content" := default (PyStr "") (msg !! "content")]> ∅))
               (default [] history)
          ++ [<["role" := PyStr "user"]>
              (<["content" :=
                   PyStr ("Context:"
                          +:+ String "010"%char
                                (String "010"%char (String "010"%char ""))
                          +:+ "Question: " +:+ question
                          +:+ String "010"%char (String "010"%char "")
                          +:+ "Answer based on the context above. "
                          +:+ "Cite page numbers.")]> ∅)])
         (rag_temperature (config self)) (rag_max_tokens (config self)) in
     let calls :=
       [EmbedCall (embedding_url (config self) +:+ "/embed")
          ["search_query: " +:+ question];
        SearchCall (qdrant_collection (config self)) query_embedding
          (rag_top_k (config self));
        GenerateCall url request] in
     query self question history w
     = match post_chat w2 url request with
       | (w3, Ok answer) => (w3, calls, Ok (answer, []))
       | (w3, Raise e) => (w3, calls, Raise e)
       end).
Proof.
  assert (∀ rs,
            build_prompt question rs history
            = <["role" := PyStr "system"]> (<["content" := PyStr system_prompt]> ∅)
              :: map (fun msg : gmap string pyval =>
                        <["role" := default (PyStr "user") (msg !! "role")]>
                        (<["content" := default (PyStr "") (msg !! "content")]> ∅))
                   (default [] history)
              ++ [<["role" := PyStr "user"]>
                  (<["content" := PyStr (user_message question rs)]> ∅)]) as Hmsgs.
  { intros rs. rewrite build_prompt_eq. reflexivity. }
  split.
  { rewrite Hmsgs. unfold user_message.
    by rewrite join_concat, (context_parts_imap results 1). }
  split; [done|]. split; [done|]. split.
  { rewrite Hmsgs. cbn [length]. rewrite length_app, length_map. cbn [length]. lia. }
  do 3 (split; [by vm_compute|]).
  intros w w1 w2 v more Hembed Hsearch url request calls.
  unfold query, embed_question, search_qdrant, generate_answer.
  rewrite Hembed, Hsearch, Hmsgs.
  change (mkChatCompletionRequest (vllm_model (config self)) _
            (rag_temperature (config self)) (rag_max_tokens (config self)))
    with request.
  fold url.
  destruct (post_chat w2 url request) as [w3 [answer|e]]; reflexivity.
Qed.

(** C10. History entries with missing keys: the message appended for the
    k-th history entry has the entry's role, or ["user"] when the entry has
    none, and the entry's content, or the empty string when it has none;
    it sits right after the system message and the earlier entries. *)
Theorem history_defaults question (results : list (ScoredPoint Float))
    (history : list (gmap string pyval)) (k : nat) (msg : gmap string pyval) :
  history !! k = Some msg →
  build_prompt question results (Some history) !! S k
  = Some (message (default (PyStr "user") (msg !! "role"))
                  (default (PyStr "") (msg !! "content"))) ∧
  (msg !! "role" = None →
   ∃ m, build_prompt question results (Some history) !! S k = Some m ∧
        m !! "role" = Some (PyStr "user")) ∧
  (msg !! "content" = None →
   ∃ m, build_prompt question results (Some history) !! S k = Some m ∧
        m !! "content" = Some (PyStr "")).
Proof.
  intros Hk.
  assert (build_prompt question results (Some history) !! S k
          = Some (message (default (PyStr "user") (msg !! "role"))
                          (default (PyStr "") (msg !! "content")))) as E.
  { rewrite build_prompt_eq. simpl.
    rewrite lookup_app_l.
    - unfold history_messages. rewrite list_lookup_fmap, Hk. simpl.
      unfold get. by destruct (msg !! "role"), (msg !! "content").
    - unfold history_messages. rewrite length_map. by eapply lookup_lt_Some. }
  split; [done|]. split.
  - intros Hrole. eexists. split; [exact E|]. rewrite Hrole. reflexivity.
  - intros Hcontent. eexists. split; [exact E|]. rewrite Hcontent.
    unfold message. rewrite lookup_insert_ne by done. by rewrite lookup_insert_eq.
Qed.
End PromptFacts.

(** ** The chat API handlers *)

(** C8 (as amended). [GET /health] answers [{"status": "healthy"}] in
    every state of the application, whether or not the pipeline has been
    constructed; it is [POST /chat] that answers 503 while the pipeline is
    not constructed, and the startup hook constructs it. *)
Theorem health_always_healthy `{RagPipeline.Backends} (app : ChatApi.App) :
  ChatApi.health app = Ok (<["status" := PyStr "healthy"]> ∅) ∧
  (∀ request w,
     ChatApi.chat ChatApi.initial request w
     = (w, [],
        Raise (HTTPException 503
          "RAG pipeline not initialized. The server may still be starting up."))) ∧
  (∀ config,
     ChatApi.pipeline (ChatApi.lifespan_startup config app)
     = Some (RagPipeline.mkRAGPipeline config)).
Proof. done. Qed.

(** C8 (as stated) fails: before the pipeline is constructed the health
    probe answers "healthy", not 503. *)
Lemma health_before_startup :
  ChatApi.pipeline (ChatApi.initial (H := Demo.empty_collection)) = None ∧
  ChatApi.health (ChatApi.initial (H := Demo.empty_collection))
  = Ok (<["status" := PyStr "healthy"]> ∅) ∧
  ∀ detail,
    ChatApi.health (ChatApi.initial (H := Demo.empty_collection))
    ≠ Raise (HTTPException 503 detail).
Proof. done. Qed.

(** ** The theorems at concrete inputs *)

Lemma overlap_coverage_witness :
  0 < 50 < 512 ∧
  ∃ ws,
    page_windows (byte_encode (content Demo.page_1000)) 512 50 = Ok ws ∧
    page_chunks byte_encode byte_decode 512 50 Demo.page_1000
    = map (make_chunk byte_decode Demo.page_1000) ws ∧
    ∀ i a b, ws !! i = Some a → ws !! S i = Some b →
      (Z.to_nat 50 ≤ length (em_window a))%nat ∧
      (Z.to_nat 50 ≤ length (em_window b))%nat ∧
      drop (length (em_window a) - Z.to_nat 50) (em_window a)
      = take (Z.to_nat 50) (em_window b).
Proof.
  assert (0 < 50 < 512) as Hov by lia.
  split; [exact Hov|].
  exact (proj2 (overlap_coverage byte_encode byte_decode [Demo.page_1000] 512 50 Hov)
           Demo.page_1000).
Defined.

Lemma sliding_window_scenario_witness :
  len (byte_encode (content Demo.page_1000)) = 1000 ∧
  len (slice (byte_encode (content Demo.page_1000)) 0 512) = 512 ∧
  len (slice (byte_encode (content Demo.page_1000)) 462 974) = 512 ∧
  len (slice (byte_encode (content Demo.page_1000)) 924 1000) = 76.
Proof.
  assert (len (byte_encode (content Demo.page_1000)) = 1000) as Hlen
    by (vm_compute; reflexivity).
  split; [exact Hlen|].
  exact (proj2 (proj2
           (sliding_window_scenario byte_encode byte_decode Demo.page_1000 Hlen))).
Defined.

Lemma chunk_index_dense_witness :
  ∃ ws e,
    page_windows (byte_encode (content Demo.page_1000)) 512 50 = Ok ws ∧
    ws !! 2%nat = Some e ∧
    em_index e = 2 ∧
    metadata (make_chunk byte_decode Demo.page_1000 e) !! "chunk_index"
    = Some (PyInt 2) ∧
    text (make_chunk byte_decode Demo.page_1000 e) = byte_decode (em_window e) ∧
    20 ≤ len (em_window e).
Proof.
  eexists _, _.
  assert (∀ A B C : Prop, A → B → (A → B → C) → A ∧ B ∧ C) as pack
    by tauto.
  apply pack.
  - vm_compute. reflexivity.
  - reflexivity.
  - intros Hws He.
    destruct (proj2 (chunk_index_dense byte_encode byte_decode [Demo.page_1000]
                       Demo.page_1000 512 50) _ Hws 2%nat _ He)
      as (? & ? & ? & _ & ?).
    done.
Defined.

Lemma embed_batch_integrity_witness :
  ∃ srv' sent out,
    Embedder.embed_texts nat nat Demo.length_server
      (Embedder.new_EmbeddingClient "http://embedding:8080/" (Some 2))
      ["a"; "bb"; "ccc"] "search_document: " 0%nat
    = (srv', sent, Ok out) ∧
    len sent = 2 ∧ len out = 3.
Proof.
  destruct (embed_batch_integrity nat nat Demo.length_server
              (fun s v => v = String.length s)
              (Embedder.new_EmbeddingClient "http://embedding:8080/" (Some 2))
              ["a"; "bb"; "ccc"] "search_document: " 0%nat)
    as (srv' & sent & out & E & _ & Hsent & _ & _ & _ & Hout & _).
  - simpl. lia.
  - intros srv request. eexists _, _. split; [reflexivity|].
    apply Forall2_fmap_r, Forall_Forall2_diag, Forall_forall. done.
  - exists srv', sent, out. split; [exact E|]. split; [exact Hsent|exact Hout].
Defined.

Lemma prompt_assembly_witness :
  RagPipeline.build_prompt (H := Demo.empty_collection) "Can I return it?"
    [RagPipeline.mkScoredPoint
       (<["page_number" := PyInt 4]>
        (<["text" := PyStr "Refunds within 30 days."]> ∅)) 9;
     RagPipeline.mkScoredPoint
       (<["text" := PyStr "Digital goods are final."]> ∅) 7]
    (Some [<["content" := PyStr "Hello"]> ∅])
  = [<["role" := PyStr "system"]>
     (<["content" := PyStr RagPipeline.system_prompt]> ∅);
     <["role" := PyStr "user"]> (<["content" := PyStr "Hello"]> ∅);
     <["role" := PyStr "user"]>
     (<["content" :=
          PyStr ("Context:" +:+ String "010"%char ""
                 +:+ "[1] (Page 4): Refunds within 30 days."
                 +:+ String "010"%char (String "010"%char "")
                 +:+ "[2] (Page unknown): Digital goods are final."
                 +:+ String "010"%char (String "010"%char "")
                 +:+ "Question: Can I return it?"
                 +:+ String "010"%char (String "010"%char "")
                 +:+ "Answer based on the context above. Cite page numbers.")]>
      ∅)] ∧
  RagPipeline.query (H := Demo.empty_collection)
    Demo.demo_pipeline "What is the refund policy?" None 0%nat
  = (3%nat,
     [RagPipeline.EmbedCall (H := Demo.empty_collection)
        "http://embedding:8080/embed"
        ["search_query: What is the refund policy?"];
      RagPipeline.SearchCall (H := Demo.empty_collection) "pdf_chunks" [40] 5;
      RagPipeline.GenerateCall (H := Demo.empty_collection)
        "http://vllm:8000/v1/chat/completions"
        (RagPipeline.mkChatCompletionRequest
           "hugging-quants/Meta-Llama-3.1-8B-Instruct-AWQ-INT4"
           [<["role" := PyStr "system"]>
            (<["content" := PyStr RagPipeline.system_prompt]> ∅);
            <["role" := PyStr "user"]>
            (<["content" :=
                 PyStr ("Context:"
                        +:+ String "010"%char
                              (String "010"%char (String "010"%char ""))
                        +:+ "Question: What is the refund policy?"
                        +:+ String "010"%char (String "010"%char "")
                        +:+ "Answer based on the context above. "
                        +:+ "Cite page numbers.")]> ∅)]
           1 1024)],
     Ok ("The context does not say.", [])).
Proof.
  split.
  - etrans.
    + exact (proj1 (prompt_assembly (H := Demo.empty_collection)
                      Demo.demo_pipeline "Can I return it?"
                      [RagPipeline.mkScoredPoint
                         (<["page_number" := PyInt 4]>
                          (<["text" := PyStr "Refunds within 30 days."]> ∅)) 9;
                       RagPipeline.mkScoredPoint
                         (<["text" := PyStr "Digital goods are final."]> ∅) 7]
                      (Some [<["content" := PyStr "Hello"]> ∅]))).
    + vm_compute; reflexivity.
  - etrans.
    + exact (proj2 (proj2 (proj2 (proj2 (proj2 (proj2 (proj2
               (prompt_assembly (H := Demo.empty_collection) Demo.demo_pipeline
                  "What is the refund policy?" [] None)))))))
               0%nat 1%nat 2%nat [40] [] eq_refl eq_refl).
    + vm_compute; reflexivity.
Defined.

Lemma history_defaults_witness :
  RagPipeline.build_prompt (H := Demo.empty_collection) "And abroad?" []
    (Some [<["content" := PyStr "What is the refund policy?"]> ∅; ∅]) !! 1%nat
  = Some (RagPipeline.message (PyStr "user") (PyStr "What is the refund policy?")).
Proof.
  exact (proj1 (history_defaults (H := Demo.empty_collection) "And abroad?" []
                  [<["content" := PyStr "What is the refund policy?"]> ∅; ∅]
                  0%nat (<["content" := PyStr "What is the refund policy?"]> ∅)
                  eq_refl)).
Defined.

Lemma upsert_length_mismatch_witness :
  VectorStore.upsert_chunks nat nat (fun q _ _ => (S q, Ok ()))
    (VectorStore.mkVectorStore "pdf_chunks" 768)
    [mkChunk "c1" ∅; mkChunk "c2" ∅] [7%nat] 0%nat
  = (0%nat, [], Raise (ValueError "Mismatch: 2 chunks but 1 embeddings")).
Proof.
  exact (upsert_length_mismatch nat nat (fun q _ _ => (S q, Ok ()))
           (VectorStore.mkVectorStore "pdf_chunks" 768)
           [mkChunk "c1" ∅; mkChunk "c2" ∅] [7%nat] 0%nat ltac:(done)).
Defined.

(** * Further properties of the services *)

(** ** More on the window loop *)

Section WindowFacts.
Import ChunkPlan.
Variable token_ids : list Z.
Variable chunk_size : Z.

Lemma slice_len_le {A} (l : list A) lo hi : len (slice l lo hi) ≤ len l.
Proof.
  unfold slice, len. rewrite length_take, length_drop. lia.
Qed.

(** A page of fewer than 20 tokens has only short windows. *)
Lemma slide_tiny starts chunk_index :
  len token_ids < 20 → slide token_ids chunk_size starts chunk_index = [].
Proof.
  intros Hn. induction starts as [|x rest IH]; simpl; [done|].
  pose proof (slice_len_le token_ids x (x + chunk_size)).
  destruct (Z.ltb_spec (len (slice token_ids x (x + chunk_size))) 20); [done|lia].
Qed.

(** Every emitted window starts at a multiple of the step that lies in
    the token list, and has at most [chunk_size] tokens. *)
Lemma slide_bounds step starts s chunk_index e :
  0 < chunk_size → 0 < step → 0 ≤ s → spaced step s starts →
  e ∈ slide token_ids chunk_size starts chunk_index →
  s ≤ em_start e ∧ (step | em_start e - s) ∧
  em_window e = window_at token_ids chunk_size (em_start e) ∧
  20 ≤ len (em_window e) ≤ chunk_size ∧
  em_start e + len (em_window e) ≤ len token_ids.
Proof.
  intros Hcs Hstep. revert s chunk_index.
  induction starts as [|x rest IH]; intros s idx Hs Hsp; simpl.
  { by intros ?%elem_of_nil. }
  destruct Hsp as [-> Hsp].
  assert (∀ idx', e ∈ slide token_ids chunk_size rest idx' →
            s ≤ em_start e ∧ (step | em_start e - s) ∧
            em_window e = window_at token_ids chunk_size (em_start e) ∧
            20 ≤ len (em_window e) ≤ chunk_size ∧
            em_start e + len (em_window e) ≤ len token_ids) as Hrest.
  { intros idx' He.
    destruct (IH (s + step) idx' ltac:(lia) Hsp He) as (H1 & [q Hq] & H3 & H4).
    split; [lia|]. split; [|done]. exists (q + 1). lia. }
  destruct (Z.ltb_spec (len (slice token_ids s (s + chunk_size))) 20) as [_|Hlong].
  { apply Hrest. }
  intros [->|He]%elem_of_cons.
  - simpl. split; [lia|]. split; [exists 0; lia|]. split; [done|].
    rewrite slice_len in * by lia. lia.
  - destruct (s + chunk_size >=? len token_ids).
    + by apply elem_of_nil in He.
    + by apply (Hrest (idx + 1)).
Qed.

(** With a step of at most [chunk_size], a position that has 20 tokens
    from it to the end is inside some emitted window. *)
Lemma slide_covers step k j chunk_index p :
  20 ≤ chunk_size → 0 < step ≤ chunk_size →
  len token_ids ≤ Z.of_nat (j + k) * step →
  Z.of_nat j * step ≤ p → p + 20 ≤ len token_ids →
  ∃ e, e ∈ slide token_ids chunk_size
             (map (fun i : nat => 0 + Z.of_nat i * step) (seq j k)) chunk_index ∧
       covers e p.
Proof.
  intros Hcs Hstep. revert j chunk_index.
  induction k as [|k IH]; intros j idx Hall Hj Hp; [lia|].
  cbn [seq map]. rewrite Z.add_0_l.
  set (s := Z.of_nat j * step) in *.
  cbn [slide].
  pose proof (slice_len token_ids s (s + chunk_size) ltac:(lia) ltac:(lia)) as Hlen.
  destruct (Z.ltb_spec (len (slice token_ids s (s + chunk_size))) 20) as [?|_];
    [lia|].
  destruct (Z.le_gt_cases (s + chunk_size) p) as [Hfar|Hnear].
  - destruct (Z.geb_spec (s + chunk_size) (len token_ids)) as [?|_]; [lia|].
    destruct (IH (S j) (idx + 1)) as (e & He & Hcov); [lia..|].
    exists e. split; [|done]. by apply list_elem_of_further.
  - eexists. split; [apply list_elem_of_here|].
    unfold covers. simpl. lia.
Qed.

(** The loop in closed form, when the overlap is at least 19 tokens: [d]
    full windows that do not reach the end, then one that does. *)
Lemma slide_closed step d k j c :
  20 ≤ chunk_size → 0 < step → 19 ≤ chunk_size - step →
  20 ≤ len token_ids - Z.of_nat j * step →
  len token_ids ≤ Z.of_nat (j + d) * step + chunk_size →
  (d = 0%nat ∨ Z.of_nat (j + d - 1) * step + chunk_size < len token_ids) →
  len token_ids ≤ Z.of_nat (j + k) * step →
  slide token_ids chunk_size
    (map (fun i : nat => 0 + Z.of_nat i * step) (seq j k)) (c + Z.of_nat j)
  = map (fun i : nat =>
           mkEmitted (0 + Z.of_nat i * step)
             (window_at token_ids chunk_size (0 + Z.of_nat i * step))
             (c + Z.of_nat i)) (seq j (S d)).
Proof.
  intros Hcs Hstep Hov. revert k j.
  induction d as [|d IH]; intros k j Hj Hend Hfull Hall.
  - destruct k as [|k]; [lia|]. cbn [seq map slide].
    unfold window_at.
    pose proof (slice_len token_ids (0 + Z.of_nat j * step)
                  (0 + Z.of_nat j * step + chunk_size) ltac:(lia) ltac:(lia)).
    destruct (Z.ltb_spec (len (slice token_ids (0 + Z.of_nat j * step)
                                 (0 + Z.of_nat j * step + chunk_size))) 20);
      [lia|].
    destruct (Z.geb_spec (0 + Z.of_nat j * step + chunk_size) (len token_ids));
      [done|lia].
  - destruct Hfull as [?|Hfull]; [done|].
    assert (Z.of_nat j * step + chunk_size < len token_ids) as Hnow by nia.
    destruct k as [|k]; [nia|].
    cbn [seq map slide].
    pose proof (slice_len token_ids (0 + Z.of_nat j * step)
                  (0 + Z.of_nat j * step + chunk_size) ltac:(lia) ltac:(lia)).
    destruct (Z.ltb_spec (len (slice token_ids (0 + Z.of_nat j * step)
                                 (0 + Z.of_nat j * step + chunk_size))) 20);
      [lia|].
    destruct (Z.geb_spec (0 + Z.of_nat j * step + chunk_size) (len token_ids));
      [lia|].
    f_equal.
    replace (c + Z.of_nat j + 1) with (c + Z.of_nat (S j)) by lia.
    apply IH.
    + nia.
    + by replace (S j + d)%nat with (j + S d)%nat by lia.
    + destruct d as [|d]; [by left|right].
      replace (S j + S d - 1)%nat with (j + S (S d) - 1)%nat by lia. done.
    + by replace (S j + k)%nat with (j + S k)%nat by lia.
Qed.
End WindowFacts.

(** ** The chunks of a page *)

Section PageFacts.
Import ChunkPlan.

Lemma range_up n step :
  0 ≤ n → 0 < step →
  ∃ k, range 0 n step
       = Ok (map (fun i : nat => 0 + Z.of_nat i * step) (seq 0 k)) ∧
       n ≤ Z.of_nat k * step.
Proof.
  intros Hn Hstep. exists (Z.to_nat ((n - 0 + step - 1) `div` step)).
  unfold range. destruct (Z.eqb_spec step 0); [lia|].
  destruct (Z.ltb_spec 0 step); [|lia]. split; [done|].
  pose proof (Z.div_mod (n - 0 + step - 1) step ltac:(lia)).
  pose proof (Z.mod_pos_bound (n - 0 + step - 1) step ltac:(lia)).
  assert (0 ≤ (n - 0 + step - 1) `div` step) by (apply Z.div_pos; lia).
  rewrite Z2Nat.id by done. nia.
Qed.

Lemma range_down n step : 0 ≤ n → step < 0 → range 0 n step = Ok [].
Proof.
  intros Hn Hstep. unfold range. destruct (Z.eqb_spec step 0); [lia|].
  destruct (Z.ltb_spec 0 step); [lia|].
  replace (Z.to_nat _) with 0%nat; [done|].
  assert ((0 - n - step - 1) `div` (- step) < 1); [|lia].
  apply Z.div_lt_upper_bound; lia.
Qed.

(** For a page of at least 20 tokens and an overlap of at least 19, the
    window loop returns the windows at offsets [0, step, ..., d * step],
    the last of which is the first to reach the end of the tokens. *)
Lemma page_windows_closed token_ids chunk_size chunk_overlap :
  19 ≤ chunk_overlap < chunk_size → 20 ≤ len token_ids →
  ∃ d : nat,
    page_windows token_ids chunk_size chunk_overlap
    = Ok (map (nth_window token_ids chunk_size chunk_overlap) (seq 0 (S d))) ∧
    chunk_count (len token_ids) chunk_size chunk_overlap = Z.of_nat (S d) ∧
    len token_ids ≤ Z.of_nat d * (chunk_size - chunk_overlap) + chunk_size ∧
    20 ≤ len token_ids - Z.of_nat d * (chunk_size - chunk_overlap).
Proof.
  intros Hov Hn. set (step := chunk_size - chunk_overlap).
  set (n := len token_ids) in *.
  set (dz := if n <=? chunk_size then 0 else (n - chunk_size + step - 1) `div` step).
  assert (0 ≤ dz ∧ n ≤ dz * step + chunk_size ∧
          (dz = 0 ∨ (dz - 1) * step + chunk_size < n)) as (Hd0 & Hd1 & Hd2).
  { unfold dz. destruct (Z.leb_spec n chunk_size); [lia|].
    pose proof (Z.div_mod (n - chunk_size + step - 1) step ltac:(lia)).
    pose proof (Z.mod_pos_bound (n - chunk_size + step - 1) step ltac:(lia)).
    assert (0 ≤ (n - chunk_size + step - 1) `div` step)
      by (apply Z.div_pos; lia).
    split; [done|]. split; [nia|]. right. nia. }
  exists (Z.to_nat dz).
  destruct (range_up n step ltac:(lia) ltac:(lia)) as (k & Hr & Hk).
  split; [|split; [|split]].
  - unfold page_windows. fold n step. rewrite Hr.
    change (Ok ?l ≫= ?f) with (f l). cbv beta. unfold mret, result_ret. f_equal.
    assert (Z.to_nat dz = 0%nat ∨
            Z.of_nat (0 + Z.to_nat dz - 1) * step + chunk_size < n) as Hfull.
    { destruct Hd2 as [->|Hd2]; [by left|].
      destruct (decide (dz = 0)) as [->|?]; [by left|right].
      replace (Z.of_nat (0 + Z.to_nat dz - 1)) with (dz - 1) by lia. done. }
    assert (0 < step ∧ 19 ≤ chunk_size - step) as [Hs0 Hs1]
      by (unfold step; lia).
    pose proof (slide_closed token_ids chunk_size step (Z.to_nat dz) k 0 0
                  ltac:(lia) Hs0 Hs1 ltac:(fold n; lia)
                  ltac:(fold n; lia) Hfull ltac:(fold n; lia)) as E.
    change (0 + Z.of_nat 0) with 0 in E. rewrite E. done.
  - unfold chunk_count. fold step.
    destruct (Z.ltb_spec n 20); [lia|].
    unfold dz. destruct (Z.leb_spec n chunk_size); [done|].
    fold dz. unfold dz at 1. destruct (Z.leb_spec n chunk_size); lia.
  - rewrite Z2Nat.id by done. done.
  - rewrite Z2Nat.id by done. destruct Hd2 as [->|Hd2]; lia.
Qed.

(** X1. With an overlap of at least 19 tokens (as the default 512/50 has)
    the chunks of a page are known in closed form: a page of [n] tokens
    gives [chunk_count n] chunks, the i-th of which is the window at
    offset [i * step] with [chunk_index = i]. *)
Theorem page_windows_closed_form token_ids chunk_size chunk_overlap :
  19 ≤ chunk_overlap < chunk_size →
  page_windows token_ids chunk_size chunk_overlap
  = Ok (map (nth_window token_ids chunk_size chunk_overlap)
          (seq 0 (Z.to_nat (chunk_count (len token_ids) chunk_size chunk_overlap)))).
Proof.
  intros Hov. destruct (Z.lt_ge_cases (len token_ids) 20) as [Htiny|Hn].
  - unfold chunk_count. destruct (Z.ltb_spec (len token_ids) 20); [|lia].
    unfold page_windows.
    destruct (range_up (len token_ids) (chunk_size - chunk_overlap)
                (len_nonneg _) ltac:(lia)) as (k & -> & _).
    change (Ok ?l ≫= ?f) with (f l). cbv beta.
    by rewrite slide_tiny.
  - destruct (page_windows_closed token_ids chunk_size chunk_overlap Hov Hn)
      as (d & -> & -> & _).
    by rewrite Nat2Z.id.
Qed.

(** X2. A page of at least 20 tokens that fits into one window gives
    exactly one chunk: the whole page, with index 0. *)
Theorem short_page_single_chunk decode document token_ids chunk_size chunk_overlap :
  chunk_overlap < chunk_size → 20 ≤ len token_ids ≤ chunk_size →
  page_windows token_ids chunk_size chunk_overlap
  = Ok [mkEmitted 0 token_ids 0] ∧
  map (make_chunk decode document) [mkEmitted 0 token_ids 0]
  = [mkChunk (decode token_ids)
       (<["page_number" := PyInt (page_number document)]>
        (<["source" := PyStr (source document)]>
         (<["content_hash" := PyStr (content_hash document)]>
          (<["chunk_index" := PyInt 0]> ∅))))].
Proof.
  intros Hov Hn. split; [|done].
  unfold page_windows.
  destruct (range_up (len token_ids) (chunk_size - chunk_overlap)
              (len_nonneg _) ltac:(lia)) as (k & -> & Hk).
  change (Ok ?l ≫= ?f) with (f l). cbv beta. unfold mret, result_ret. f_equal.
  destruct k as [|k]; [lia|]. cbn [seq map slide].
  change (0 + Z.of_nat 0 * (chunk_size - chunk_overlap)) with 0.
  assert (slice token_ids 0 (0 + chunk_size) = token_ids) as ->.
  { rewrite slice_take_drop by lia. simpl. apply take_ge. unfold len in *. lia. }
  destruct (Z.ltb_spec (len token_ids) 20); [lia|].
  destruct (Z.geb_spec (0 + chunk_size) (len token_ids)); [done|lia].
Qed.

(** X3. A page of fewer than 20 tokens, the empty page included, gives no
    chunk at all, whatever the (non-zero) step is. *)
Theorem tiny_page_no_chunk encode decode document chunk_size chunk_overlap :
  chunk_size - chunk_overlap ≠ 0 → len (encode (content document)) < 20 →
  page_windows (encode (content document)) chunk_size chunk_overlap = Ok [] ∧
  chunk_documents encode decode [document] chunk_size chunk_overlap = Ok [].
Proof.
  intros Hstep Hn.
  assert (page_windows (encode (content document)) chunk_size chunk_overlap
          = Ok []) as Hw.
  { unfold page_windows.
    destruct (range_pos_ok (len (encode (content document))) _ Hstep)
      as [starts ->].
    change (Ok ?l ≫= ?f) with (f l). cbv beta. by rewrite slide_tiny. }
  split; [done|].
  rewrite chunk_documents_pages by done. simpl.
  unfold page_chunks. by rewrite Hw.
Qed.
End PageFacts.

Section StepFacts.
Import ChunkPlan.
Variable encode : string → list Z.
Variable decode : list Z → string.


End StepFacts.

Section RefusalFacts.
Import ChunkPlan.
Variable encode : string → result (list Z).
Variable decode : list Z → string.

(** On pages that the tokenizer accepts the loop is the loop of
    [Chunker], run on the tokens it returns. *)
Lemma chunk_loop_accepted (tokens : string → list Z) documents
    chunk_size chunk_overlap all_chunks :
  Forall (fun d => encode (content d) = Ok (tokens (content d))) documents →
  SpecialTokens.chunk_loop encode decode documents chunk_size chunk_overlap
    all_chunks
  = Chunker.chunk_loop tokens decode documents chunk_size chunk_overlap
      all_chunks.
Proof.
  intros Hall. revert all_chunks.
  induction Hall as [|d rest Hd _ IH]; intros acc; [done|].
  cbn [SpecialTokens.chunk_loop Chunker.chunk_loop]. rewrite Hd.
  cbn [mbind result_bind].
  destruct (len (tokens (content d)) =? 0); [apply IH|].
  destruct (page_windows _ chunk_size chunk_overlap) as [ws|e]; [|done].
  apply IH.
Qed.

Lemma chunk_loop_passed_over before rest chunk_size chunk_overlap all_chunks :
  chunk_size ≤ chunk_overlap →
  Forall (passed_over encode chunk_size chunk_overlap) before →
  SpecialTokens.chunk_loop encode decode (before ++ rest) chunk_size
    chunk_overlap all_chunks
  = SpecialTokens.chunk_loop encode decode rest chunk_size chunk_overlap
      all_chunks.
Proof.
  intros Hle Hall. induction Hall as [|d before (t & Hd & Hzero) _ IH]; [done|].
  cbn [app SpecialTokens.chunk_loop]. rewrite Hd. cbn [mbind result_bind].
  destruct (Z.eqb_spec (len t) 0) as [_|Hlen]; [exact IH|].
  assert (chunk_size < chunk_overlap) as Hneg.
  { destruct (decide (chunk_size = chunk_overlap)) as [Heq|]; [|lia].
    rewrite (Hzero Heq) in Hlen. done. }
  unfold page_windows.
  rewrite range_down by (auto using len_nonneg with lia).
  cbn [mbind result_bind mret result_ret slide map]. by rewrite app_nil_r.
Qed.

(** X4. Degenerate steps ([chunk_size <= chunk_overlap]). The pages are
    read in order. While the tokenizer accepts a page and, for a zero
    step, finds no token in it, the page is passed over. If every page is
    passed over the call returns no chunk, without any error; with
    [chunk_overlap > chunk_size] every [range] is empty, so that is
    whenever the tokenizer accepts every page. The first page
    that is not passed over ends the call: with the error of the
    tokenizer if it refuses the page, and with the [ValueError] of
    [range] if the step is zero and the page has a token. *)
Theorem degenerate_step documents chunk_size chunk_overlap :
  chunk_size ≤ chunk_overlap →
  (Forall (passed_over encode chunk_size chunk_overlap) documents →
   SpecialTokens.chunk_documents encode decode documents chunk_size
     chunk_overlap = Ok []) ∧
  (∀ before document rest e,
     documents = before ++ document :: rest →
     Forall (passed_over encode chunk_size chunk_overlap) before →
     encode (content document) = Raise e →
     SpecialTokens.chunk_documents encode decode documents chunk_size
       chunk_overlap = Raise e) ∧
  (∀ before document rest token_ids,
     documents = before ++ document :: rest →
     Forall (passed_over encode chunk_size chunk_overlap) before →
     chunk_size = chunk_overlap →
     encode (content document) = Ok token_ids → token_ids ≠ [] →
     SpecialTokens.chunk_documents encode decode documents chunk_size
       chunk_overlap
     = Raise (ValueError "range() arg 3 must not be zero")).
Proof.
  intros Hle. unfold SpecialTokens.chunk_documents.
  split; [|split].
  - intros Hall. rewrite <- (app_nil_r documents).
    by rewrite chunk_loop_passed_over.
  - intros before d rest e -> Hall Hd.
    rewrite chunk_loop_passed_over by done.
    cbn [SpecialTokens.chunk_loop]. by rewrite Hd.
  - intros before d rest t -> Hall -> Hd Ht.
    rewrite chunk_loop_passed_over by done.
    cbn [SpecialTokens.chunk_loop]. rewrite Hd. cbn [mbind result_bind].
    destruct (Z.eqb_spec (len t) 0) as [Hlen|_].
    { destruct t; [done|]. unfold len in Hlen. simpl in Hlen. lia. }
    unfold page_windows, range. by rewrite Z.sub_diag.
Qed.
End RefusalFacts.

Section CoverFacts.
Import ChunkPlan.

Lemma window_at_lookup token_ids chunk_size start p :
  0 ≤ start ≤ p → p < start + len (window_at token_ids chunk_size start) →
  0 < chunk_size →
  window_at token_ids chunk_size start !! Z.to_nat (p - start)
  = token_ids !! Z.to_nat p.
Proof.
  intros Hs Hp Hcs. unfold window_at in *.
  rewrite slice_len in Hp by lia.
  rewrite slice_take_drop by lia.
  rewrite lookup_take_lt by lia. rewrite lookup_drop. f_equal. lia.
Qed.

(** X5. No token is lost except in a short tail: with
    [0 <= chunk_overlap < chunk_size] and [chunk_size >= 20], every token
    that has at least 20 tokens from its position to the end of the page
    is inside the window of some emitted chunk. *)
Theorem tokens_lost_only_in_short_tail token_ids chunk_size chunk_overlap p :
  0 ≤ chunk_overlap < chunk_size → 20 ≤ chunk_size →
  0 ≤ p → p + 20 ≤ len token_ids →
  ∃ ws e,
    page_windows token_ids chunk_size chunk_overlap = Ok ws ∧ e ∈ ws ∧
    covers e p ∧
    em_window e !! Z.to_nat (p - em_start e) = token_ids !! Z.to_nat p.
Proof.
  intros Hov Hcs Hp0 Hp.
  destruct (range_up (len token_ids) (chunk_size - chunk_overlap)
              (len_nonneg _) ltac:(lia)) as (k & Hr & Hk).
  destruct (slide_covers token_ids chunk_size (chunk_size - chunk_overlap)
              k 0 0 p) as (e & He & Hcov); [lia..|].
  exists (slide token_ids chunk_size
            (map (fun i : nat => 0 + Z.of_nat i * (chunk_size - chunk_overlap))
               (seq 0 k)) 0), e.
  split; [unfold page_windows; by rewrite Hr|]. split; [done|]. split; [done|].
  destruct (slide_bounds token_ids chunk_size (chunk_size - chunk_overlap)
              _ 0 0 e ltac:(lia) ltac:(lia) ltac:(lia)
              (range_spaced _ _ _ Hr) He) as (Hs & _ & Hw & _).
  unfold covers in Hcov. rewrite Hw in *.
  apply window_at_lookup; lia.
Qed.

(** X6. With an overlap of at least 19 tokens (the default is 50) nothing
    is lost: every token of a page of at least 20 tokens is inside the
    window of some emitted chunk. *)
Theorem overlap_19_loses_nothing token_ids chunk_size chunk_overlap p :
  19 ≤ chunk_overlap < chunk_size → 20 ≤ len token_ids →
  0 ≤ p < len token_ids →
  ∃ ws e,
    page_windows token_ids chunk_size chunk_overlap = Ok ws ∧ e ∈ ws ∧
    covers e p ∧
    em_window e !! Z.to_nat (p - em_start e) = token_ids !! Z.to_nat p.
Proof.
  intros Hov Hn Hp.
  destruct (page_windows_closed token_ids chunk_size chunk_overlap Hov Hn)
    as (d & Hws & _ & Hend & Hlast).
  set (step := chunk_size - chunk_overlap) in *.
  set (i := Z.to_nat (Z.min (p `div` step) (Z.of_nat d))).
  assert (0 ≤ p `div` step) by (apply Z.div_pos; lia).
  pose proof (Z.div_mod p step ltac:(lia)).
  pose proof (Z.mod_pos_bound p step ltac:(lia)).
  assert (Z.of_nat i * step ≤ p) as Hlo by (unfold i; nia).
  assert (p < Z.of_nat i * step + chunk_size) as Hhi.
  { unfold i. destruct (Z.le_gt_cases (p `div` step) (Z.of_nat d)).
    - rewrite Z.min_l, Z2Nat.id by lia. unfold step in *. nia.
    - rewrite Z.min_r, Nat2Z.id by lia. lia. }
  eexists _, (nth_window token_ids chunk_size chunk_overlap i).
  split; [exact Hws|].
  assert ((i < S d)%nat) as Hi by (unfold i; lia).
  clearbody i. subst step.
  assert (0 ≤ Z.of_nat i * (chunk_size - chunk_overlap)) by nia.
  assert (covers (nth_window token_ids chunk_size chunk_overlap i) p) as Hcov.
  { unfold covers, nth_window. cbn [em_start em_window].
    unfold window_at. rewrite slice_len by lia. lia. }
  split; [|split; [done|]].
  - apply list_elem_of_fmap. exists i. split; [done|].
    apply elem_of_seq. lia.
  - unfold covers, nth_window in *. cbn [em_start em_window] in *.
    apply window_at_lookup; lia.
Qed.

(** X7. Window sizes: with [0 < chunk_size] and
    [chunk_overlap < chunk_size] every emitted window starts at a
    multiple of the step, lies inside the token list,
    and has between 20 and [chunk_size] tokens; every emitted window that
    is followed by another one has exactly [chunk_size] tokens, and the
    next one starts one step further. *)
Theorem window_size_bounds token_ids chunk_size chunk_overlap ws :
  0 < chunk_size → chunk_overlap < chunk_size →
  page_windows token_ids chunk_size chunk_overlap = Ok ws →
  (∀ e, e ∈ ws →
     0 ≤ em_start e ∧ (chunk_size - chunk_overlap | em_start e) ∧
     em_window e = slice token_ids (em_start e) (em_start e + chunk_size) ∧
     20 ≤ len (em_window e) ≤ chunk_size ∧
     em_start e + len (em_window e) ≤ len token_ids) ∧
  (∀ i a b, ws !! i = Some a → ws !! S i = Some b →
     len (em_window a) = chunk_size ∧
     em_start b = em_start a + (chunk_size - chunk_overlap)).
Proof.
  intros Hcs Hov Hws. unfold page_windows in Hws.
  destruct (range 0 (len token_ids) (chunk_size - chunk_overlap))
    as [starts|] eqn:Hr; [|done].
  apply range_spaced in Hr. injection Hws as <-. split.
  - intros e He.
    destruct (slide_bounds token_ids chunk_size (chunk_size - chunk_overlap)
                starts 0 0 e Hcs ltac:(lia) ltac:(lia) Hr He)
      as (H1 & H2 & H3 & H4 & H5).
    rewrite Z.sub_0_r in H2. done.
  - intros i a b Ha Hb.
    destruct (slide_adjacent token_ids chunk_size Hcs
                (chunk_size - chunk_overlap) starts 0 0 i a b
                ltac:(lia) ltac:(lia) Hr Ha Hb)
      as (Hs & Hend & Hnext & Hwa & _).
    split; [|done]. rewrite Hwa. unfold window_at.
    rewrite slice_len by lia. lia.
Qed.
End CoverFacts.

(** ** The pages of a PDF *)

Section ParseFacts.
Import ParsePlan.
Variable strip : string → string.
Variable pdf_filename : string.

Lemma parse_pages_plan page_index pages documents :
  parse_pages strip pdf_filename page_index pages documents
  = documents ++ page_documents strip pdf_filename page_index pages.
Proof.
  revert page_index documents.
  induction pages as [|page_data rest IH]; intros page_index documents;
    cbn [parse_pages page_documents]; [by rewrite app_nil_r|].
  unfold page_document. case_bool_decide; rewrite IH; [done|].
  by rewrite <- app_assoc.
Qed.

Lemma page_documents_elem page_index pages d :
  d ∈ page_documents strip pdf_filename page_index pages ↔
  ∃ (i : nat) page_data,
    pages !! i = Some page_data ∧
    strip (get page_data "text" "") ≠ "" ∧
    d = new_Document (strip (get page_data "text" ""))
          (page_index + Z.of_nat i + 1) pdf_filename None.
Proof.
  revert page_index.
  induction pages as [|page_data rest IH]; intros page_index;
    cbn [page_documents].
  { split; [by intros ?%elem_of_nil|]. by intros (i & p & ? & _). }
  rewrite elem_of_app, IH. unfold page_document. split.
  - intros [Hd|(i & p & Hi & Hne & ->)].
    + case_bool_decide; [by apply elem_of_nil in Hd|].
      apply list_elem_of_singleton in Hd as ->.
      exists 0%nat, page_data. rewrite Z.add_0_r. done.
    + exists (S i), p. split; [done|]. split; [done|]. f_equal. lia.
  - intros ([|i] & p & Hi & Hne & ->).
    + injection Hi as <-. left. rewrite bool_decide_eq_false_2 by done.
      rewrite Z.add_0_r. apply list_elem_of_here.
    + right. exists i, p. split; [done|]. split; [done|]. f_equal. lia.
Qed.

Lemma page_documents_sorted page_index pages (j1 j2 : nat) d1 d2 :
  (j1 < j2)%nat →
  page_documents strip pdf_filename page_index pages !! j1 = Some d1 →
  page_documents strip pdf_filename page_index pages !! j2 = Some d2 →
  page_index < page_number d1 < page_number d2.
Proof.
  revert page_index j1 j2.
  induction pages as [|page_data rest IH]; intros page_index j1 j2 Hj;
    cbn [page_documents]; [done|].
  assert (∀ j d, page_documents strip pdf_filename (page_index + 1) rest !! j
                 = Some d → page_index + 1 < page_number d) as Hlater.
  { intros j d Hd. apply list_elem_of_lookup_2, page_documents_elem in Hd
      as (i & p & _ & _ & ->). simpl. lia. }
  unfold page_document. case_bool_decide; cbn [app].
  - intros H1 H2. destruct (IH _ _ _ Hj H1 H2). lia.
  - destruct j1 as [|j1], j2 as [|j2]; try lia; cbn [lookup list_lookup].
    + intros [= <-] H2%Hlater. simpl. lia.
    + intros H1 H2. destruct (IH (page_index + 1) j1 j2 ltac:(lia) H1 H2). lia.
Qed.

(** X8. The pages of a PDF: [parse_pdf] gives one document for every page
    whose stripped text is not empty, in page order; the document of the
    page at (0-based) position [i] has [page_number = i + 1], so blank
    pages leave gaps in the numbering rather than renumber the rest; page
    numbers are strictly increasing. *)
Theorem parse_pdf_page_numbers pages :
  parse_pdf strip pdf_filename pages
  = page_documents strip pdf_filename 0 pages ∧
  (∀ d, d ∈ parse_pdf strip pdf_filename pages ↔
     ∃ (i : nat) page_data,
       pages !! i = Some page_data ∧
       strip (get page_data "text" "") ≠ "" ∧
       content d = strip (get page_data "text" "") ∧
       page_number d = Z.of_nat i + 1 ∧
       source d = pdf_filename ∧
       hash_of_content d) ∧
  (∀ (j1 j2 : nat) d1 d2, (j1 < j2)%nat →
     parse_pdf strip pdf_filename pages !! j1 = Some d1 →
     parse_pdf strip pdf_filename pages !! j2 = Some d2 →
     0 < page_number d1 < page_number d2) ∧
  (length (parse_pdf strip pdf_filename pages) ≤ length pages)%nat.
Proof.
  assert (parse_pdf strip pdf_filename pages
          = page_documents strip pdf_filename 0 pages) as E.
  { unfold parse_pdf. by rewrite parse_pages_plan. }
  split; [done|]. rewrite E. split; [|split].
  - intros d. rewrite page_documents_elem. split.
    + intros (i & p & Hi & Hne & ->). exists i, p. by repeat split.
    + intros (i & p & Hi & Hne & Hc & Hn & Hs & Hh). exists i, p.
      split; [done|]. split; [done|]. destruct d as [c n s h].
      unfold hash_of_content in Hh. simpl in *. subst. reflexivity.
  - apply page_documents_sorted.
  - clear E. generalize 0. induction pages as [|p rest IH]; intros idx; [done|].
    cbn [page_documents]. rewrite length_app. unfold page_document.
    specialize (IH (idx + 1)). case_bool_decide; simpl; lia.
Qed.
End ParseFacts.

(** ** The shape of the two digests *)

Lemma be_bytes_length k x : length (Hashlib.be_bytes k x) = k.
Proof.
  revert x. induction k as [|k IH]; intros x; [done|].
  cbn [Hashlib.be_bytes]. rewrite length_app, IH. simpl. lia.
Qed.

Lemma string_of_list_ascii_length l :
  String.length (string_of_list_ascii l) = length l.
Proof. induction l as [|a l IH]; simpl; [done|by rewrite IH]. Qed.

Lemma hex_length bs : String.length (Hashlib.hex bs) = (2 * length bs)%nat.
Proof.
  unfold Hashlib.hex. rewrite string_of_list_ascii_length.
  induction bs as [|b bs IH]; [done|]. cbn [map concat].
  rewrite length_app, IH. simpl. lia.
Qed.

Lemma round256_length st kw :
  length st = 8%nat → length (Hashlib.round256 st kw) = 8%nat.
Proof.
  intros Hst. do 9 (destruct st as [|? st]; try done).
Qed.

Lemma compress256_length st block :
  length st = 8%nat → length (Hashlib.compress256 st block) = 8%nat.
Proof.
  intros Hst. unfold Hashlib.compress256. rewrite length_zip_with.
  assert (∀ kws st0, length st0 = 8%nat →
            length (fold_left Hashlib.round256 kws st0) = 8%nat) as Hfold.
  { induction kws as [|kw kws IH]; intros st0 H0; [done|].
    simpl. apply IH. by apply round256_length. }
  rewrite Hfold by done. lia.
Qed.

Lemma sha256_hexdigest_length data :
  String.length (Hashlib.sha256_hexdigest data) = 64%nat.
Proof.
  unfold Hashlib.sha256_hexdigest. rewrite hex_length.
  assert (∀ bl st, length st = 8%nat →
            length (fold_left Hashlib.compress256 bl st) = 8%nat) as Hfold.
  { induction bl as [|b bl IH]; intros st Hst; [done|].
    simpl. apply IH. by apply compress256_length. }
  assert (∀ ws : list Z,
            length (concat (map (Hashlib.be_bytes 4) ws)) = (4 * length ws)%nat)
    as Hcat.
  { induction ws as [|w ws IH]; [done|]. cbn [map concat].
    rewrite length_app, be_bytes_length, IH. simpl. lia. }
  rewrite Hcat, Hfold by reflexivity. done.
Qed.

(** X9. The fingerprint of a page: every document that [parse_pdf] builds
    carries a [content_hash] of exactly 64 lower-case hexadecimal digits
    (the SHA-256 hex digest of its content), so it holds no underscore and
    the point name ["{content_hash}_{chunk_index}"] splits in one way. *)
Theorem parse_pdf_hash_shape strip pdf_filename pages :
  Forall (fun d =>
            content_hash d = Hashlib.sha256_hexdigest (Hashlib.utf8 (content d)) ∧
            String.length (content_hash d) = 64%nat ∧
            Hashlib.is_hex (content_hash d) = true)
    (parse_pdf strip pdf_filename pages).
Proof.
  eapply Forall_impl; [apply parse_pages_hash; constructor|].
  intros d Hd. simpl. split; [exact Hd|]. rewrite Hd.
  split; [apply sha256_hexdigest_length|apply hex_is_hex].
Qed.

(** ** Batches *)

Section BatchFacts.
Import Batching.
Context {A : Type}.
Implicit Types l : list A.

Lemma range_offsets n size :
  0 ≤ n → 1 ≤ size → range 0 n size = Ok (offsets n size).
Proof.
  intros Hn Hsize. unfold range, offsets.
  destruct (Z.eqb_spec size 0); [lia|].
  destruct (Z.ltb_spec 0 size); [|lia]. by rewrite Z.sub_0_r.
Qed.

Lemma slices_concat l size k j :
  1 ≤ size → len l ≤ Z.of_nat (j + k) * size →
  concat (map (fun i => slice l i (i + size))
            (map (fun i : nat => 0 + Z.of_nat i * size) (seq j k)))
  = drop (j * Z.to_nat size) l.
Proof.
  intros Hsize. revert j. induction k as [|k IH]; intros j Hcover.
  - simpl. rewrite drop_ge; [done|]. unfold len in Hcover. nia.
  - cbn [seq map concat].
    rewrite IH by (replace (S j + k)%nat with (j + S k)%nat by lia; done).
    rewrite slice_take_drop by lia.
    replace (Z.to_nat (0 + Z.of_nat j * size + size - (0 + Z.of_nat j * size)))
      with (Z.to_nat size) by lia.
    replace (Z.to_nat (0 + Z.of_nat j * size)) with (j * Z.to_nat size)%nat
      by lia.
    replace (S j * Z.to_nat size)%nat
      with (j * Z.to_nat size + Z.to_nat size)%nat by lia.
    rewrite <- drop_drop. apply take_drop.
Qed.

(** The batches of a list partition it in order; there are
    [ceil(n / size)] of them, each with between 1 and [size] elements. *)
Lemma batches_spec l size :
  1 ≤ size →
  concat (batches l size) = l ∧
  len (batches l size) = (len l + size - 1) `div` size ∧
  Forall (fun b => 1 ≤ len b ≤ size) (batches l size).
Proof.
  intros Hsize. pose proof (len_nonneg l) as Hn.
  pose proof (Z.div_mod (len l + size - 1) size ltac:(lia)) as Hdm.
  pose proof (Z.mod_pos_bound (len l + size - 1) size ltac:(lia)) as Hmod.
  assert (0 ≤ (len l + size - 1) `div` size) as Hc by (apply Z.div_pos; lia).
  unfold batches, offsets. split; [|split].
  - rewrite slices_concat; [done|done|]. rewrite Nat.add_0_l, Z2Nat.id by done.
    nia.
  - unfold len at 1. rewrite !length_map, length_seq. lia.
  - apply Forall_fmap, Forall_fmap, Forall_forall. intros i Hi%elem_of_seq.
    simpl. rewrite slice_len by lia.
    assert (Z.of_nat i + 1 ≤ (len l + size - 1) `div` size) by lia. nia.
Qed.
End BatchFacts.

(** ** [embed_texts]: failures and odd batch sizes *)

Section EmbedRunFacts.
Import Embedder Batching.
Variable Vec : Type.
Variable Server : Type.
Variable post : Server → EmbedRequest → Server * result (list Vec).
Variable self : EmbeddingClient.
Variable prefixed_texts : list string.

Lemma embed_batches_accepted starts all_embeddings sent srv srv' answers :
  run_collect post srv (map (request_at self prefixed_texts) starts)
  = Some (srv', answers) →
  embed_batches Vec Server post self prefixed_texts starts all_embeddings sent srv
  = (srv', sent ++ map (request_at self prefixed_texts) starts,
     Ok (all_embeddings ++ answers)).
Proof.
  revert all_embeddings sent srv answers.
  induction starts as [|i rest IH]; intros acc sent srv answers; simpl.
  - intros [= <- <-]. by rewrite !app_nil_r.
  - fold (batch_at self prefixed_texts i). fold (request_at self prefixed_texts i).
    destruct (post srv (request_at self prefixed_texts i)) as [srv1 [vs|e]];
      [|done].
    destruct (run_collect post srv1 _) as [[srv2 more]|] eqn:Hrest; [|done].
    intros [= <- <-]. rewrite (IH _ _ _ _ Hrest). by rewrite <- !app_assoc.
Qed.

Lemma embed_batches_rejected done failing rest all_embeddings sent srv
    srv_k answers srv_f e :
  run_collect post srv (map (request_at self prefixed_texts) done)
  = Some (srv_k, answers) →
  post srv_k (request_at self prefixed_texts failing) = (srv_f, Raise e) →
  embed_batches Vec Server post self prefixed_texts (done ++ failing :: rest)
    all_embeddings sent srv
  = (srv_f, sent ++ map (request_at self prefixed_texts) (done ++ [failing]),
     Raise e).
Proof.
  revert all_embeddings sent srv answers.
  induction done as [|i done IH]; intros acc sent srv answers; simpl.
  - intros [= <- <-] Hf.
    fold (batch_at self prefixed_texts failing).
    fold (request_at self prefixed_texts failing). by rewrite Hf.
  - fold (batch_at self prefixed_texts i). fold (request_at self prefixed_texts i).
    destruct (post srv (request_at self prefixed_texts i)) as [srv1 [vs|e']];
      [|done].
    destruct (run_collect post srv1 _) as [[srv2 more]|] eqn:Hdone; [|done].
    intros [= <- <-] Hf. rewrite (IH _ _ _ _ Hdone Hf). by rewrite <- !app_assoc.
Qed.
End EmbedRunFacts.

Lemma embed_plan_requests self texts prefix :
  Batching.embed_plan self texts prefix
  = map (Embedder.request_at self (map (fun text => prefix +:+ text) texts))
      (Batching.offsets (len (map (fun text => prefix +:+ text) texts))
         (Embedder.batch_size self)).
Proof.
  unfold Batching.embed_plan, Batching.batches.
  by rewrite <- list_fmap_compose.
Qed.

(** What [embed_texts] does with a batch size of at least 1, whatever the
    server answers. *)
Lemma embed_texts_run Vec Server post (self : Embedder.EmbeddingClient)
    (texts : list string) (prefix : string) (srv : Server) :
  1 ≤ Embedder.batch_size self →
  (∀ srv' answers,
     Batching.run_collect post srv (Batching.embed_plan self texts prefix)
     = Some (srv', answers) →
     Embedder.embed_texts Vec Server post self texts prefix srv
     = (srv', Batching.embed_plan self texts prefix, Ok answers)) ∧
  (∀ done failing rest srv_k answers srv_f e,
     Batching.embed_plan self texts prefix = done ++ failing :: rest →
     Batching.run_collect post srv done = Some (srv_k, answers) →
     post srv_k failing = (srv_f, Raise e) →
     Embedder.embed_texts Vec Server post self texts prefix srv
     = (srv_f, done ++ [failing], Raise e)).
Proof.
  intros HB. unfold Embedder.embed_texts.
  destruct (Z.eqb_spec (Embedder.batch_size self) 0); [lia|].
  rewrite range_offsets by (auto using len_nonneg).
  rewrite embed_plan_requests. split.
  - intros srv' answers Hrun.
    by rewrite (embed_batches_accepted _ _ _ _ _ _ [] [] _ _ _ Hrun).
  - intros done failing rest srv_k answers srv_f e Hplan Hrun Hfail.
    apply fmap_app_inv in Hplan as (d & r & -> & Hr & ->).
    symmetry in Hr. apply fmap_cons_inv in Hr as (i & r' & -> & -> & ->).
    rewrite (embed_batches_rejected _ _ _ _ _ _ _ _ [] [] _ _ _ _ _ Hrun Hfail).
    by rewrite fmap_app.
Qed.

(** X10. Failure of a batch: [embed_texts] sends the planned requests in
    order, each to the server as the previous one left it. If all are
    answered, the result is the answers concatenated; if one raises, the
    call raises the same error, that request is the last one sent, and the
    vectors of the earlier batches are not returned. *)
Theorem embed_runs_until_first_failure Vec Server post
    (self : Embedder.EmbeddingClient) (texts : list string) (prefix : string)
    (srv : Server) :
  1 ≤ Embedder.batch_size self →
  (∀ srv' answers,
     Batching.run_collect post srv (Batching.embed_plan self texts prefix)
     = Some (srv', answers) →
     Embedder.embed_texts Vec Server post self texts prefix srv
     = (srv', Batching.embed_plan self texts prefix, Ok answers)) ∧
  (∀ done failing rest srv_k answers srv_f e,
     Batching.embed_plan self texts prefix = done ++ failing :: rest →
     Batching.run_collect post srv done = Some (srv_k, answers) →
     post srv_k failing = (srv_f, Raise e) →
     Embedder.embed_texts Vec Server post self texts prefix srv
     = (srv_f, done ++ [failing], Raise e)).
Proof. apply embed_texts_run. Qed.

(** X11. Odd batch sizes: with [batch_size = 0] the call raises
    [ZeroDivisionError] (from the count of batches) before any request;
    with a negative [batch_size] it sends nothing and returns the empty
    list without any error, however many texts it was given. *)
Theorem embed_bad_batch_size Vec Server post (self : Embedder.EmbeddingClient)
    (texts : list string) (prefix : string) (srv : Server) :
  Embedder.batch_size self ≤ 0 →
  Embedder.embed_texts Vec Server post self texts prefix srv
  = (srv, [],
     if Embedder.batch_size self =? 0 then Raise ZeroDivisionError else Ok []).
Proof.
  intros HB. unfold Embedder.embed_texts.
  destruct (Z.eqb_spec (Embedder.batch_size self) 0); [done|].
  rewrite range_down by (auto using len_nonneg with lia). done.
Qed.

(** ** The base URL of the embedding client *)

Lemma rstrip_slash_app_slash s :
  Embedder.rstrip_slash (s +:+ "/") = Embedder.rstrip_slash s.
Proof.
  induction s as [|c s IH]; [done|].
  rewrite append_cons_l. cbn [Embedder.rstrip_slash]. by rewrite IH.
Qed.

Lemma append_slash_nonempty t : t +:+ "/" ≠ "".
Proof. by destruct t. Qed.

Lemma rstrip_slash_no_trailing s t : Embedder.rstrip_slash s ≠ t +:+ "/".
Proof.
  revert t. induction s as [|c s IH]; intros t; cbn [Embedder.rstrip_slash].
  { intros E. by apply (append_slash_nonempty t). }
  destruct (Embedder.rstrip_slash s) as [|c' r] eqn:Hr.
  - destruct (Ascii.eqb_spec c "/") as [->|Hc].
    + intros E. by apply (append_slash_nonempty t).
    + destruct t as [|c1 t]; rewrite ?append_nil_l, ?append_cons_l.
      * by intros [= ->].
      * intros [= _ E]. by apply (append_slash_nonempty t).
  - destruct t as [|c1 t]; rewrite ?append_nil_l, ?append_cons_l.
    + done.
    + intros [= _ E]. by apply (IH t).
Qed.

Lemma rstrip_slash_split s :
  ∃ k : nat,
    s = Embedder.rstrip_slash s +:+ string_of_list_ascii (repeat "/"%char k).
Proof.
  induction s as [|c s [k IH]]; [by exists 0%nat|].
  cbn [Embedder.rstrip_slash].
  destruct (Embedder.rstrip_slash s) as [|c' r] eqn:Hr.
  - rewrite append_nil_l in IH. destruct (Ascii.eqb_spec c "/") as [->|Hc].
    + exists (S k). rewrite append_nil_l. simpl. by rewrite <- IH.
    + exists k. rewrite append_cons_l, append_nil_l. by rewrite <- IH.
  - exists k. rewrite append_cons_l. by rewrite <- IH.
Qed.

(** X12. The base URL: the client drops the trailing slashes of the
    configured URL and nothing else, so the URL it keeps never ends in a
    slash, and clients configured with or without a trailing slash are the
    same client. *)
Theorem base_url_trailing_slashes (base_url : string) (batch_size : option Z) :
  Embedder.new_EmbeddingClient (base_url +:+ "/") batch_size
  = Embedder.new_EmbeddingClient base_url batch_size ∧
  (∀ t, Embedder.base_url (Embedder.new_EmbeddingClient base_url batch_size)
        ≠ t +:+ "/") ∧
  (∃ k : nat,
     base_url
     = Embedder.base_url (Embedder.new_EmbeddingClient base_url batch_size)
       +:+ string_of_list_ascii (repeat "/"%char k)).
Proof.
  unfold Embedder.new_EmbeddingClient. cbn [Embedder.base_url].
  split; [by rewrite rstrip_slash_app_slash|].
  split; [apply rstrip_slash_no_trailing|apply rstrip_slash_split].
Qed.

(** ** [upsert_chunks]: points, batches and failures *)

Section UpsertFacts.
Import Batching.
Variable Vec : Type.
Variable Qdrant : Type.
Variable client_upsert :
  Qdrant → string → list (VectorStore.PointStruct Vec) → Qdrant * result unit.
Variable self : VectorStore.VectorStore.

Lemma build_point_of chunk (embedding : Vec) :
  has_keys chunk →
  VectorStore.build_point Vec chunk embedding = Ok (point_of chunk embedding).
Proof.
  intros [[h Hh] [i Hi]]. unfold VectorStore.build_point, point_of, getitem, get.
  rewrite Hh, Hi. reflexivity.
Qed.

Lemma build_point_missing chunk (embedding : Vec) key :
  missing_key chunk = Some key →
  VectorStore.build_point Vec chunk embedding = Raise (KeyError key).
Proof.
  unfold missing_key, VectorStore.build_point, getitem.
  destruct (Chunker.metadata chunk !! "content_hash") as [h|];
    [|by intros [= <-]].
  destruct (Chunker.metadata chunk !! "chunk_index") as [i|];
    [done|by intros [= <-]].
Qed.

Lemma build_points_good chunks (embeddings : list Vec) points trace :
  Forall has_keys chunks →
  VectorStore.build_points Vec (zip chunks embeddings) points trace
  = (trace ++ map VectorStore.PointBuilt (zip_with point_of chunks embeddings),
     Ok (points ++ zip_with point_of chunks embeddings)).
Proof.
  intros Hgood. revert embeddings points trace.
  induction Hgood as [|c chunks Hc _ IH]; intros [|v vs] points trace;
    simpl; rewrite ?app_nil_r; try done.
  rewrite build_point_of by done. rewrite IH, <- !app_assoc. done.
Qed.

Lemma build_points_bad good bad rest (embeddings : list Vec) key points trace :
  Forall has_keys good → missing_key bad = Some key →
  (length good < length embeddings)%nat →
  VectorStore.build_points Vec (zip (good ++ bad :: rest) embeddings) points trace
  = (trace ++ map VectorStore.PointBuilt (zip_with point_of good embeddings),
     Raise (KeyError key)).
Proof.
  intros Hgood Hbad. revert embeddings points trace.
  induction Hgood as [|c good Hc _ IH]; intros [|v vs] points trace Hlen;
    simpl in *; try lia.
  - rewrite (build_point_missing bad v key Hbad). by rewrite app_nil_r.
  - rewrite build_point_of by done. rewrite IH by lia. by rewrite <- app_assoc.
Qed.

Lemma upsert_batches_accepted points starts trace q q' :
  run_ok (fun q b => client_upsert q (VectorStore.collection_name self) b) q
    (map (fun i => slice points i (i + 100)) starts) = Some q' →
  VectorStore.upsert_batches Vec Qdrant client_upsert self points 100 starts trace q
  = (q',
     trace ++ map (VectorStore.UpsertCall (VectorStore.collection_name self))
                (map (fun i => slice points i (i + 100)) starts),
     Ok ()).
Proof.
  revert trace q. induction starts as [|i rest IH]; intros trace q; simpl.
  - intros [= <-]. by rewrite app_nil_r.
  - destruct (client_upsert q _ _) as [q1 [[]|e0]]; [|done].
    intros Hrun. rewrite (IH _ _ Hrun). by rewrite <- app_assoc.
Qed.

Lemma upsert_batches_rejected points done failing rest trace q q_k q_f e :
  run_ok (fun q b => client_upsert q (VectorStore.collection_name self) b) q
    (map (fun i => slice points i (i + 100)) done) = Some q_k →
  client_upsert q_k (VectorStore.collection_name self)
    (slice points failing (failing + 100)) = (q_f, Raise e) →
  VectorStore.upsert_batches Vec Qdrant client_upsert self points 100
    (done ++ failing :: rest) trace q
  = (q_f,
     trace ++ map (VectorStore.UpsertCall (VectorStore.collection_name self))
                (map (fun i => slice points i (i + 100)) (done ++ [failing])),
     Raise e).
Proof.
  revert trace q. induction done as [|i done IH]; intros trace q; simpl.
  - intros [= <-] Hf. by rewrite Hf.
  - destruct (client_upsert q _ _) as [q1 [[]|e']]; [|done].
    intros Hrun Hf. rewrite (IH _ _ Hrun Hf). by rewrite <- app_assoc.
Qed.

(** What [upsert_chunks] does with chunks that have their keys and as many
    embeddings, whatever the store answers. *)
Lemma upsert_chunks_run chunks (embeddings : list Vec) q :
  len chunks = len embeddings → Forall has_keys chunks →
  let points := zip_with point_of chunks embeddings in
  let name := VectorStore.collection_name self in
  (∀ q',
     run_ok (fun q b => client_upsert q name b) q (batches points 100) = Some q' →
     VectorStore.upsert_chunks Vec Qdrant client_upsert self chunks embeddings q
     = (q', upsert_trace name points (batches points 100), Ok ())) ∧
  (∀ done failing rest q_k q_f e,
     batches points 100 = done ++ failing :: rest →
     run_ok (fun q b => client_upsert q name b) q done = Some q_k →
     client_upsert q_k name failing = (q_f, Raise e) →
     VectorStore.upsert_chunks Vec Qdrant client_upsert self chunks embeddings q
     = (q_f, upsert_trace name points (done ++ [failing]), Raise e)).
Proof.
  intros Hlen Hgood points name. unfold VectorStore.upsert_chunks.
  destruct (Z.eqb_spec (len chunks) (len embeddings)) as [_|?]; [|done].
  cbn [negb].
  rewrite build_points_good by done. rewrite !app_nil_l. fold points.
  rewrite range_offsets by (auto using len_nonneg with lia).
  unfold upsert_trace, batches. split.
  - intros q' Hrun. by rewrite (upsert_batches_accepted _ _ _ _ _ Hrun).
  - intros done failing rest q_k q_f e Hplan Hrun Hfail.
    apply fmap_app_inv in Hplan as (d & r & -> & Hr & ->).
    symmetry in Hr. apply fmap_cons_inv in Hr as (i & r' & -> & -> & ->).
    rewrite (upsert_batches_rejected _ _ _ _ _ _ _ _ _ Hrun Hfail).
    by rewrite map_app.
Qed.

(** X13. Batches of 100: for chunks that carry their two keys and as many
    embeddings, [upsert_chunks] builds one point per chunk, in order, and
    sends them in [ceil(N / 100)] batches of between 1 and 100 points that
    partition the points in order; if the store accepts every batch the
    call returns normally, having first built all points and then sent
    all batches. *)
Theorem upsert_in_batches_of_100 chunks (embeddings : list Vec) q :
  len chunks = len embeddings → Forall has_keys chunks →
  let points := zip_with point_of chunks embeddings in
  let name := VectorStore.collection_name self in
  len points = len chunks ∧
  concat (batches points 100) = points ∧
  len (batches points 100) = (len chunks + 100 - 1) `div` 100 ∧
  Forall (fun b => 1 ≤ len b ≤ 100) (batches points 100) ∧
  (∀ q',
     run_ok (fun q b => client_upsert q name b) q (batches points 100) = Some q' →
     VectorStore.upsert_chunks Vec Qdrant client_upsert self chunks embeddings q
     = (q', upsert_trace name points (batches points 100), Ok ())).
Proof.
  intros Hlen Hgood points name.
  assert (len points = len chunks) as Hp.
  { unfold points, len in *. rewrite length_zip_with. lia. }
  destruct (batches_spec points 100 ltac:(lia)) as (H1 & H2 & H3).
  rewrite Hp in H2. repeat split; [done..|].
  apply (upsert_chunks_run chunks embeddings q Hlen Hgood).
Qed.

(** X14. A rejected batch: if the store raises on a batch, [upsert_chunks]
    raises the same error and sends no later batch; the batches sent
    before it were accepted and stay in the store (the state the failing
    call leaves is the one returned). *)
Theorem upsert_stops_at_rejected_batch chunks (embeddings : list Vec) q
    done failing rest q_k q_f e :
  len chunks = len embeddings → Forall has_keys chunks →
  batches (zip_with point_of chunks embeddings) 100 = done ++ failing :: rest →
  run_ok (fun q b => client_upsert q (VectorStore.collection_name self) b) q done
  = Some q_k →
  client_upsert q_k (VectorStore.collection_name self) failing = (q_f, Raise e) →
  VectorStore.upsert_chunks Vec Qdrant client_upsert self chunks embeddings q
  = (q_f,
     upsert_trace (VectorStore.collection_name self)
       (zip_with point_of chunks embeddings) (done ++ [failing]),
     Raise e).
Proof.
  intros Hlen Hgood. apply (upsert_chunks_run chunks embeddings q Hlen Hgood).
Qed.

(** X15. A chunk without its keys: given as many embeddings as chunks
    (so that the length check passes), if the metadata of a chunk lacks
    ["content_hash"] or ["chunk_index"], [upsert_chunks] raises the
    [KeyError] of the first missing key of the first such chunk; the store
    is not called at all, although every earlier chunk had its point
    built. *)
Theorem upsert_missing_key good bad rest (embeddings : list Vec) key q :
  len (good ++ bad :: rest) = len embeddings →
  Forall has_keys good → missing_key bad = Some key →
  VectorStore.upsert_chunks Vec Qdrant client_upsert self
    (good ++ bad :: rest) embeddings q
  = (q, map VectorStore.PointBuilt (zip_with point_of good embeddings),
     Raise (KeyError key)).
Proof.
  intros Hlen Hgood Hbad. unfold VectorStore.upsert_chunks.
  destruct (Z.eqb_spec (len (good ++ bad :: rest)) (len embeddings)); [|done].
  cbn [negb].
  rewrite (build_points_bad good bad rest embeddings key) by
    (try done; unfold len in Hlen; rewrite length_app in Hlen; simpl in Hlen; lia).
  done.
Qed.
End UpsertFacts.

(** ** From chunking to the store, and back to the prompt *)

Section PipelineFacts.
Import Batching.
Variable encode : string → list Z.
Variable decode : list Z → string.

Lemma make_chunk_keys document e :
  Chunker.metadata (make_chunk decode document e) !! "content_hash"
  = Some (PyStr (content_hash document)) ∧
  Chunker.metadata (make_chunk decode document e) !! "chunk_index"
  = Some (PyInt (em_index e)) ∧
  Chunker.metadata (make_chunk decode document e) !! "page_number"
  = Some (PyInt (page_number document)) ∧
  Chunker.metadata (make_chunk decode document e) !! "source"
  = Some (PyStr (source document)) ∧
  Chunker.metadata (make_chunk decode document e) !! "text" = None.
Proof. by repeat split. Qed.

Lemma make_chunk_has_keys document e : has_keys (make_chunk decode document e).
Proof.
  destruct (make_chunk_keys document e) as (H1 & H2 & _).
  split; eexists; eassumption.
Qed.



(** X17. Identical pages collide: two pages with the same content (and
    the content hash the constructor computes) give chunks with pairwise
    equal point ids, whatever their [source] and [page_number] are: the
    id under which a point is upserted does not tell the two pages apart. *)
Theorem identical_pages_share_ids {Vec} chunk_size chunk_overlap d1 d2 (v1 v2 : Vec) :
  content d1 = content d2 → hash_of_content d1 → hash_of_content d2 →
  map (fun c => VectorStore.id (point_of c v1))
    (page_chunks encode decode chunk_size chunk_overlap d1)
  = map (fun c => VectorStore.id (point_of c v2))
      (page_chunks encode decode chunk_size chunk_overlap d2).
Proof.
  intros Hc H1 H2.
  assert (content_hash d1 = content_hash d2) as Hh.
  { unfold hash_of_content in *. by rewrite H1, H2, Hc. }
  unfold page_chunks. rewrite Hc.
  destruct (page_windows _ _ _) as [ws|]; [|done].
  rewrite <- !list_fmap_compose. apply list_fmap_ext. intros _ e _.
  unfold point_of. cbn [VectorStore.id compose]. unfold get.
  destruct (make_chunk_keys d1 e) as (-> & -> & _).
  destruct (make_chunk_keys d2 e) as (-> & -> & _).
  by rewrite Hh.
Qed.
End PipelineFacts.

Section ReadBackFacts.
Import RagPipeline.
Context `{Backends}.

(** X18. What ingestion writes is what the query side reads: for a chunk
    built by the chunker, the payload of its stored point has the keys
    that [build_prompt] and [query] look up, so no default is used: the
    context line shows the page number and the chunk text, and the source
    carries the text, page number and file name of the chunk. *)
Theorem ingested_point_read_back {V} decode document e (embedding : V)
    (score : Float) (i : Z) :
  let chunk := make_chunk decode document e in
  let payload := VectorStore.payload (Batching.point_of chunk embedding) in
  VectorStore.build_point V chunk embedding
  = Ok (Batching.point_of chunk embedding) ∧
  VectorStore.id (Batching.point_of chunk embedding)
  = VectorStore.point_id (PyStr (PdfParser.content_hash document)) (PyInt (em_index e)) ∧
  context_parts i [mkScoredPoint payload score]
  = ["[" +:+ pretty i +:+ "] (Page " +:+ pretty (PdfParser.page_number document) +:+ "): "
     +:+ decode (em_window e)] ∧
  package_sources [mkScoredPoint payload score]
  = [mkSource (PyStr (decode (em_window e))) (PyInt (PdfParser.page_number document))
       (PyStr (PdfParser.source document)) (round score 4)].
Proof.
  intros chunk payload. split; [|split; [|split]].
  - apply build_point_of, make_chunk_has_keys.
  - reflexivity.
  - reflexivity.
  - reflexivity.
Qed.
End ReadBackFacts.

(** ** [ensure_collection] *)

(** X19. Creating the collection once: for a store whose listing is a
    read-only view of its collections and in which a created collection is
    listed afterwards, [ensure_collection] returns normally and leaves the
    collection listed; it creates it (with the configured size and the
    cosine distance) exactly when it was not listed before; and a second
    call, with whatever [vector_dimension], only lists the collections: it
    neither creates nor compares dimensions. *)
Theorem ensure_collection_idempotent Qdrant get_collections create_collection
    (names : Qdrant → list string) (self : VectorStore.VectorStore) (q : Qdrant) :
  (∀ q, get_collections q = (q, Ok (names q))) →
  (∀ q n p, ∃ q', create_collection q n p = (q', Ok ()) ∧ n ∈ names q') →
  ∃ q1 t1,
    Collection.ensure_collection Qdrant get_collections create_collection self q
    = (q1, t1, Ok ()) ∧
    VectorStore.collection_name self ∈ names q1 ∧
    t1 = (if bool_decide (VectorStore.collection_name self ∈ names q)
          then [Collection.GetCollections]
          else [Collection.GetCollections;
                Collection.CreateCollection (VectorStore.collection_name self)
                  (Collection.mkVectorParams (VectorStore.vector_dimension self)
                     Collection.COSINE)]) ∧
    ∀ dimension,
      Collection.ensure_collection Qdrant get_collections create_collection
        (VectorStore.mkVectorStore (VectorStore.collection_name self) dimension) q1
      = (q1, [Collection.GetCollections], Ok ()).
Proof.
  intros Hlist Hcreate.
  assert (∀ q1, VectorStore.collection_name self ∈ names q1 → ∀ dimension,
            Collection.ensure_collection Qdrant get_collections create_collection
              (VectorStore.mkVectorStore (VectorStore.collection_name self)
                 dimension) q1
            = (q1, [Collection.GetCollections], Ok ())) as Hagain.
  { intros q1 Hin dimension. unfold Collection.ensure_collection.
    rewrite Hlist. cbn [VectorStore.collection_name].
    by rewrite bool_decide_eq_true_2. }
  unfold Collection.ensure_collection at 1. rewrite Hlist.
  case_bool_decide as Hin.
  - exists q, [Collection.GetCollections]. repeat split; [done|]. by apply Hagain.
  - destruct (Hcreate q (VectorStore.collection_name self)
                (Collection.mkVectorParams (VectorStore.vector_dimension self)
                   Collection.COSINE)) as (q' & -> & Hin').
    eexists q', _. repeat split; [done|]. by apply Hagain.
Qed.

(** ** [query] and [chat] *)

Section QueryFacts.
Import RagPipeline.
Context `{Backends}.

(** X20. The order of the pipeline and its exits: [query] calls the
    embedding server, then the search, then the generation, and stops at
    the first call that raises, with that error and without the later
    calls; an empty answer of the embedding server is an [IndexError]
    before any search; when all three calls succeed the result is the
    generated answer with one source per search result, in order. *)
Theorem query_stops_at_first_failure (self : RAGPipeline) (question : string)
    (history : option (list (gmap string pyval))) (w : World) :
  let embed_url := embedding_url (config self) +:+ "/embed" in
  let embed_call := EmbedCall embed_url ["search_query: " +:+ question] in
  let search_call := SearchCall (qdrant_collection (config self)) in
  let chat_url := vllm_url (config self) +:+ "/v1/chat/completions" in
  let request results :=
    mkChatCompletionRequest (vllm_model (config self))
      (build_prompt question results history)
      (rag_temperature (config self)) (rag_max_tokens (config self)) in
  match post_embed w embed_url ["search_query: " +:+ question] with
  | (w1, Raise e) => query self question history w = (w1, [embed_call], Raise e)
  | (w1, Ok []) =>
      query self question history w = (w1, [embed_call], Raise IndexError)
  | (w1, Ok (v :: _)) =>
      let top_k := rag_top_k (config self) in
      match query_points w1 (qdrant_collection (config self)) v top_k with
      | (w2, Raise e) =>
          query self question history w
          = (w2, [embed_call; search_call v top_k], Raise e)
      | (w2, Ok results) =>
          match post_chat w2 chat_url (request results) with
          | (w3, Raise e) =>
              query self question history w
              = (w3, [embed_call; search_call v top_k;
                      GenerateCall chat_url (request results)], Raise e)
          | (w3, Ok answer) =>
              query self question history w
              = (w3, [embed_call; search_call v top_k;
                      GenerateCall chat_url (request results)],
                 Ok (answer, package_sources results)) ∧
              length (package_sources results) = length results
          end
      end
  end.
Proof.
  intros embed_url embed_call search_call chat_url request.
  unfold query, embed_question, search_qdrant, generate_answer.
  fold embed_url chat_url.
  destruct (post_embed w embed_url _) as [w1 [[|v more]|e]]; [done| |done].
  destruct (query_points w1 _ v _) as [w2 [results|e]]; [|done].
  fold (request results).
  destruct (post_chat w2 chat_url (request results)) as [w3 [answer|e]];
    [|done].
  split; [done|]. unfold package_sources. by rewrite length_map.
Qed.

(** X21. The status codes of [POST /chat]: the handler either returns a
    response, or raises an [HTTPException] with status 503 (exactly when no
    pipeline is constructed, and then without any backend call) or with
    status 500 and the text of the error that the pipeline raised. On
    success [chunks_retrieved] is the number of sources and [model] is the
    configured model. After the startup hook 503 is never raised. *)
Theorem chat_status_codes (app : ChatApi.App) (request : ChatApi.ChatRequest)
    (w : World) :
  match ChatApi.pipeline app with
  | None =>
      ChatApi.chat app request w
      = (w, [],
         Raise (HTTPException 503
           "RAG pipeline not initialized. The server may still be starting up."))
  | Some p =>
      match query p (ChatApi.question request) (ChatApi.history request) w with
      | (w', t, Ok (answer, sources)) =>
          ChatApi.chat app request w
          = (w', t,
             Ok (ChatApi.mkChatResponse answer sources (vllm_model (config p))
                   (len sources)))
      | (w', t, Raise e) =>
          ChatApi.chat app request w
          = (w', t, Raise (HTTPException 500 (exn_str e)))
      end
  end ∧
  (∀ cfg w' t status detail,
     ChatApi.chat (ChatApi.lifespan_startup cfg app) request w
     = (w', t, Raise (HTTPException status detail)) → status = 500) ∧
  (∀ w' t e, ChatApi.chat app request w = (w', t, Raise e) →
     ∃ status detail, e = HTTPException status detail ∧
                      (status = 503 ∨ status = 500)).
Proof.
  split; [|split].
  - unfold ChatApi.chat. destruct (ChatApi.pipeline app) as [p|]; [|done].
    by destruct (query p _ _ w) as [[w' t] [[answer sources]|e]].
  - intros cfg w' t status detail. unfold ChatApi.chat. simpl.
    destruct (query _ _ _ w) as [[w1 t1] [[answer sources]|e]]; [done|].
    by intros [= _ _ <- _].
  - intros w' t e. unfold ChatApi.chat.
    destruct (ChatApi.pipeline app) as [p|].
    + destruct (query p _ _ w) as [[w1 t1] [[answer sources]|e']]; [done|].
      intros [= _ _ <-]. eauto.
    + intros [= _ _ <-]. eauto.
Qed.

Lemma message_dom role content :
  dom (message role content) = ({["role"; "content"]} : gset string).
Proof. unfold message. rewrite !dom_insert_L, dom_empty_L. set_solver. Qed.

(** X22. Only roles and contents reach the model: every message of the
    prompt has exactly the two keys ["role"] and ["content"]; any other
    key of a history entry is dropped. *)
Theorem prompt_messages_have_two_keys question
    (results : list (ScoredPoint Float)) history m :
  m ∈ build_prompt question results history →
  dom m = ({["role"; "content"]} : gset string) ∧
  is_Some (m !! "role") ∧ is_Some (m !! "content").
Proof.
  rewrite build_prompt_eq. intros Hm.
  assert (∃ r c, m = message r c) as (r & c & ->).
  { apply elem_of_cons in Hm as [->|Hm]; [eauto|].
    apply elem_of_app in Hm as [Hm|Hm].
    - unfold history_messages in Hm.
      apply list_elem_of_fmap in Hm as (msg & -> & _). eauto.
    - apply list_elem_of_singleton in Hm as ->. eauto. }
  split; [apply message_dom|]. split; by eexists.
Qed.

Lemma message_get (m : gmap string pyval) :
  dom m = ({["role"; "content"]} : gset string) →
  message (get m "role" (PyStr "user")) (get m "content" (PyStr "")) = m.
Proof.
  intros Hdom.
  assert (is_Some (m !! "role")) as [r Hr]
    by (apply elem_of_dom; rewrite Hdom; set_solver +).
  assert (is_Some (m !! "content")) as [c Hc]
    by (apply elem_of_dom; rewrite Hdom; set_solver +).
  unfold get. rewrite Hr, Hc. apply map_eq. intros k. unfold message.
  destruct (decide (k = "role")) as [->|Hk1]; [by rewrite lookup_insert_eq|].
  rewrite lookup_insert_ne by done.
  destruct (decide (k = "content")) as [->|Hk2]; [by rewrite lookup_insert_eq|].
  rewrite lookup_insert_ne, lookup_empty by done.
  symmetry. apply not_elem_of_dom. rewrite Hdom.
  rewrite elem_of_union, !elem_of_singleton. by intros [?|?].
Qed.

(** X23. Well-formed histories pass through unchanged: when every history
    entry has exactly the keys ["role"] and ["content"] (as the entries
    that the command-line client appends have), the prompt is the system
    message, the history itself, and the user message. *)
Theorem well_formed_history_forwarded question
    (results : list (ScoredPoint Float)) (history : list (gmap string pyval)) :
  Forall (fun m => dom m = ({["role"; "content"]} : gset string)) history →
  build_prompt question results (Some history)
  = message (PyStr "system") (PyStr system_prompt)
    :: history
    ++ [message (PyStr "user") (PyStr (user_message question results))].
Proof.
  intros Hwf. rewrite build_prompt_eq.
  change (default [] (Some history)) with history. do 2 f_equal.
  unfold history_messages. induction Hwf as [|m rest Hm _ IH]; [done|].
  cbn [map]. cbv beta. rewrite message_get by done. by rewrite IH.
Qed.
End QueryFacts.

(** ** The shape of a point id *)

Lemma string_app_length (a b : string) :
  String.length (a +:+ b) = (String.length a + String.length b)%nat.
Proof.
  induction a as [|c a IH]; [done|].
  rewrite append_cons_l. simpl. by rewrite IH.
Qed.

Lemma substring_length n m s :
  (n + m ≤ String.length s)%nat → String.length (substring n m s) = m.
Proof.
  revert n m. induction s as [|c s IH]; intros [|n] [|m]; simpl;
    try done; try lia.
  - intros Hle. f_equal. apply IH. lia.
  - intros Hle. apply (IH n 0%nat). lia.
  - intros Hle. apply (IH n (S m)). lia.
Qed.

Lemma substring_is_hex n m s :
  Hashlib.is_hex s = true → Hashlib.is_hex (substring n m s) = true.
Proof.
  revert n m. induction s as [|c s IH]; intros [|n] [|m] Hs; simpl;
    try done.
  - unfold Hashlib.is_hex in *. simpl in *.
    apply andb_prop in Hs as [Hc Hs]. rewrite Hc. by apply (IH 0%nat m).
  - apply IH. unfold Hashlib.is_hex in *. simpl in Hs.
    by apply andb_prop in Hs as [_ Hs].
  - apply IH. unfold Hashlib.is_hex in *. simpl in Hs.
    by apply andb_prop in Hs as [_ Hs].
Qed.

(** X24. The shape of a point id: whatever the content hash and the chunk
    index are, the id is a string of 36 characters, five groups of 8, 4, 4,
    4 and 12 lower-case hexadecimal digits separated by hyphens, which is
    the textual form of a UUID that the store takes as a point key. *)
Theorem point_id_shape (content_hash chunk_index : pyval) :
  String.length (VectorStore.point_id content_hash chunk_index) = 36%nat ∧
  ∃ a b c d e,
    VectorStore.point_id content_hash chunk_index
    = a +:+ "-" +:+ b +:+ "-" +:+ c +:+ "-" +:+ d +:+ "-" +:+ e ∧
    map String.length [a; b; c; d; e] = [8; 4; 4; 4; 12]%nat ∧
    Forall (fun g => Hashlib.is_hex g = true) [a; b; c; d; e].
Proof.
  unfold VectorStore.point_id, Hashlib.uuid5.
  set (h := Hashlib.hex (Hashlib.be_bytes 16 _)).
  assert (String.length h = 32%nat) as Hh
    by (unfold h; rewrite hex_length, be_bytes_length; done).
  assert (Hashlib.is_hex h = true) as Hx by apply hex_is_hex.
  assert (map String.length
            [substring 0 8 h; substring 8 4 h; substring 12 4 h;
             substring 16 4 h; substring 20 12 h] = [8; 4; 4; 4; 12]%nat) as Hl.
  { cbn [map]. by rewrite !substring_length by lia. }
  split.
  - rewrite !string_app_length, !substring_length by lia. done.
  - eexists _, _, _, _, _. split; [done|]. split; [exact Hl|].
    repeat constructor; by apply substring_is_hex.
Qed.

(** ** The ingestion run *)

Section IngestionFacts.
Import Batching.
Variable encode : string → list Z.
Variable decode : list Z → string.
Variable strip : string → string.
Variable exists_dir : string → bool.
Variable sorted_glob : string → string → list string.
Variable path_name : string → string.
Variable to_markdown : string → list (gmap string string).
Variable Vec : Type.
Variable Server : Type.
Variable post : Server → Embedder.EmbedRequest → Server * result (list Vec).
Variable Qdrant : Type.
Variable get_collections : Qdrant → Qdrant * result (list string).
Variable create_collection :
  Qdrant → string → Collection.VectorParams → Qdrant * result unit.
Variable client_upsert :
  Qdrant → string → list (VectorStore.PointStruct Vec) → Qdrant * result unit.
Variable get_collection :
  Qdrant → string → Qdrant * result Collection.CollectionInfo.



Lemma collect_chunks_tiny config pdf_files all_chunks :
  Ingestion.chunk_size config - Ingestion.chunk_overlap config ≠ 0 →
  (∀ file page_data, file ∈ pdf_files → page_data ∈ to_markdown file →
     len (encode (strip (get page_data "text" ""))) < 20) →
  Ingestion.collect_chunks encode decode strip path_name to_markdown config
    pdf_files all_chunks = Ok all_chunks.
Proof.
  intros Hstep. revert all_chunks.
  induction pdf_files as [|f rest IH]; intros acc Htiny; [done|].
  cbn [Ingestion.collect_chunks].
  rewrite chunk_documents_pages by done.
  assert (concat (map (page_chunks encode decode (Ingestion.chunk_size config)
                         (Ingestion.chunk_overlap config))
                    (parse_pdf strip (path_name f) (to_markdown f))) = []) as ->.
  { apply concat_nil_Forall, Forall_fmap, Forall_forall. intros d Hd.
    unfold parse_pdf in Hd. rewrite parse_pages_plan, app_nil_l in Hd.
    apply page_documents_elem in Hd as (i & p & Hi & _ & ->).
    unfold compose, page_chunks, page_windows.
    match goal with
    | |- context [range ?a ?b ?c] => destruct (range a b c) as [starts|]
    end; [|done].
    change (Ok starts ≫= ?g) with (g starts). cbv beta.
    unfold mret, result_ret. rewrite slide_tiny; [done|].
    apply (Htiny f p); [apply list_elem_of_here|].
    by eapply list_elem_of_lookup_2. }
  simpl. rewrite app_nil_r. apply IH.
  intros file p Hf. apply Htiny. by apply list_elem_of_further.
Qed.



Lemma upsert_trace_needs_equal_lengths (self : VectorStore.VectorStore)
    chunks (embeddings : list Vec) q q' t r :
  VectorStore.upsert_chunks Vec Qdrant client_upsert self chunks embeddings q
  = (q', t, r) →
  t ≠ [] → len chunks = len embeddings.
Proof.
  unfold VectorStore.upsert_chunks.
  destruct (Z.eqb_spec (len chunks) (len embeddings)); [done|].
  by intros [= _ <- _].
Qed.

(** X25. Nothing to ingest: if the PDF directory does not exist the run
    exits with code 1; if it exists, [chunk_size] differs from
    [chunk_overlap] (the step is not zero), and every page of every PDF
    found has fewer than 20 tokens (in particular if no PDF is found),
    the run exits with code 0. In both cases neither the embedding server
    nor the store is contacted. *)
Theorem ingestion_exits_without_contact config (srv : Server) (q : Qdrant) :
  let directory := Ingestion.pdf_directory config in
  let pdf_files := sorted_glob directory "*.pdf" ++ sorted_glob directory "*.PDF" in
  (exists_dir directory = false →
   Ingestion.main encode decode strip exists_dir sorted_glob path_name
     to_markdown Vec Server post Qdrant get_collections create_collection
     client_upsert get_collection config srv q
   = (srv, q, [], Ingestion.Exit 1)) ∧
  (exists_dir directory = true →
   Ingestion.chunk_size config - Ingestion.chunk_overlap config ≠ 0 →
   (∀ file page_data, file ∈ pdf_files → page_data ∈ to_markdown file →
      len (encode (strip (get page_data "text" ""))) < 20) →
   Ingestion.main encode decode strip exists_dir sorted_glob path_name
     to_markdown Vec Server post Qdrant get_collections create_collection
     client_upsert get_collection config srv q
   = (srv, q, [], Ingestion.Exit 0)).
Proof.
  intros directory pdf_files. unfold Ingestion.main. fold directory pdf_files.
  split.
  - by intros ->.
  - intros -> Hstep Htiny. cbn [negb].
    rewrite (collect_chunks_tiny config pdf_files [] Hstep Htiny).
    by destruct pdf_files.
Qed.


(** X27. No point without all vectors: in every run, whatever the servers
    answer, a point is built or sent to the store only after every chunk
    was embedded successfully and as many vectors as chunks came back; if
    an embedding request fails, the store receives no point. *)
Theorem no_upsert_without_embeddings config (srv : Server) (q : Qdrant)
    srv' q' t o ev :
  Ingestion.main encode decode strip exists_dir sorted_glob path_name
    to_markdown Vec Server post Qdrant get_collections create_collection
    client_upsert get_collection config srv q
  = (srv', q', t, o) →
  Ingestion.Store ev ∈ t →
  ∃ chunks sent embeddings,
    Ingestion.collect_chunks encode decode strip path_name to_markdown config
      (sorted_glob (Ingestion.pdf_directory config) "*.pdf"
       ++ sorted_glob (Ingestion.pdf_directory config) "*.PDF") []
    = Ok chunks ∧
    Embedder.embed_texts Vec Server post
      (Embedder.new_EmbeddingClient (Ingestion.embedding_url config)
         (Some (Ingestion.embedding_batch_size config)))
      (map Chunker.text chunks) "search_document: " srv
    = (srv', sent, Ok embeddings) ∧
    len chunks = len embeddings.
Proof.
  unfold Ingestion.main.
  assert (∀ (l : list Collection.call), Ingestion.Store ev ∉ map Ingestion.Admin l)
    as Hadmin by (intros l (? & ? & _)%list_elem_of_fmap; done).
  assert (∀ (l : list Embedder.EmbedRequest),
            Ingestion.Store ev ∉ map Ingestion.Embed l)
    as Hembed by (intros l (? & ? & _)%list_elem_of_fmap; done).
  destruct (exists_dir _); cbn [negb];
    [|by intros [= _ _ <- _] ?%elem_of_nil].
  destruct (_ ++ _) as [|f files] eqn:Hfiles;
    [by intros [= _ _ <- _] ?%elem_of_nil|].
  destruct (Ingestion.collect_chunks _ _ _ _ _ _ _ _) as [chunks|e] eqn:Hchunks;
    [|by intros [= _ _ <- _] ?%elem_of_nil].
  destruct chunks as [|c0 chunks0] eqn:Hc;
    [by intros [= _ _ <- _] ?%elem_of_nil|].
  rewrite <- Hc in *. clear Hc.
  destruct (Collection.ensure_collection _ _ _ _ _) as [[q1 t1] [[]|e]];
    [|intros [= _ _ <- _] Hin; by apply Hadmin in Hin].
  destruct (Embedder.embed_texts _ _ _ _ _ _ _) as [[srv1 t2] [embeddings|e]]
    eqn:Hemb;
    [|intros [= _ _ <- _] [Hin|Hin]%elem_of_app;
      [by apply Hadmin in Hin|by apply Hembed in Hin]].
  destruct (VectorStore.upsert_chunks _ _ _ _ _ _ _) as [[q2 t3] r3] eqn:Hup.
  assert (∀ tail,
            Ingestion.Store ev
            ∈ map Ingestion.Admin t1 ++ map Ingestion.Embed t2
              ++ map Ingestion.Store t3 ++ map Ingestion.Admin tail →
            len chunks = len embeddings) as Hfin.
  { intros tail Hin.
    eapply upsert_trace_needs_equal_lengths; [exact Hup|].
    intros ->. repeat (apply elem_of_app in Hin as [Hin|Hin]).
    - by apply Hadmin in Hin.
    - by apply Hembed in Hin.
    - by apply elem_of_nil in Hin.
    - by apply Hadmin in Hin. }
  destruct r3 as [[]|e].
  - destruct (Collection.get_collection_info _ _ _ _) as [[q3 t4] [info|e]];
      intros [= <- _ <- _] Hin; exists chunks, t2, embeddings;
      (split; [done|]); (split; [done|]); by apply (Hfin t4).
  - intros [= <- _ <- _] Hin. exists chunks, t2, embeddings.
    split; [done|]. split; [done|]. apply (Hfin []).
    cbn [map]. by rewrite app_nil_r.
Qed.
End IngestionFacts.

(** ** The further properties at concrete inputs *)

Lemma page_windows_closed_form_witness :
  ChunkPlan.chunk_count (len Sample.tokens_1000) 512 50 = 3 ∧
  page_windows Sample.tokens_1000 512 50
  = Ok (map (ChunkPlan.nth_window Sample.tokens_1000 512 50) (seq 0 3)).
Proof.
  split; [reflexivity|].
  exact (page_windows_closed_form Sample.tokens_1000 512 50 ltac:(lia)).
Defined.

Lemma short_page_single_chunk_witness :
  page_windows Sample.tokens_30 512 50 = Ok [mkEmitted 0 Sample.tokens_30 0].
Proof.
  assert (20 ≤ len Sample.tokens_30 ≤ 512) as Hn
    by (change (len Sample.tokens_30) with 30; lia).
  exact (proj1 (short_page_single_chunk byte_decode Sample.twin_a
                  Sample.tokens_30 512 50 ltac:(lia) Hn)).
Defined.

Lemma tiny_page_no_chunk_witness :
  chunk_documents byte_encode byte_decode [Sample.short_page] 512 50 = Ok [].
Proof.
  assert (len (byte_encode (content Sample.short_page)) < 20) as Hn
    by (change (len (byte_encode (content Sample.short_page))) with 9; lia).
  exact (proj2 (tiny_page_no_chunk byte_encode byte_decode Sample.short_page
                  512 50 ltac:(lia) Hn)).
Defined.

Lemma degenerate_step_witness :
  SpecialTokens.chunk_documents Sample.strict_encode byte_decode
    [Sample.twin_a] 50 60 = Ok [] ∧
  SpecialTokens.chunk_documents Sample.strict_encode byte_decode
    [Sample.twin_a; Sample.special_page] 50 60
  = Raise (ValueError "Encountered text corresponding to disallowed special token") ∧
  SpecialTokens.chunk_documents Sample.strict_encode byte_decode
    [Sample.twin_a; Sample.special_page] 50 50
  = Raise (ValueError "range() arg 3 must not be zero").
Proof.
  assert (Forall (ChunkPlan.passed_over Sample.strict_encode 50 60)
            [Sample.twin_a]) as Hpass.
  { repeat constructor.
    exists (byte_encode (PdfParser.content Sample.twin_a)).
    split; [reflexivity|]. intros [=]. }
  split; [|split].
  - exact (proj1 (degenerate_step Sample.strict_encode byte_decode
                    [Sample.twin_a] 50 60 ltac:(lia)) Hpass).
  - exact (proj1 (proj2 (degenerate_step Sample.strict_encode byte_decode
                           [Sample.twin_a; Sample.special_page] 50 60
                           ltac:(lia)))
             [Sample.twin_a] Sample.special_page [] _ eq_refl Hpass eq_refl).
  - assert (byte_encode (PdfParser.content Sample.twin_a) ≠ []) as Hne
      by (intros Hnil; vm_compute in Hnil; discriminate Hnil).
    exact (proj2 (proj2 (degenerate_step Sample.strict_encode byte_decode
                           [Sample.twin_a; Sample.special_page] 50 50
                           ltac:(lia)))
             [] Sample.twin_a [Sample.special_page]
             (byte_encode (PdfParser.content Sample.twin_a))
             eq_refl (Forall_nil_2 _) eq_refl eq_refl Hne).
Defined.

Lemma tokens_lost_only_in_short_tail_witness :
  ∃ ws e,
    page_windows Sample.tokens_1000 512 0 = Ok ws ∧ e ∈ ws ∧
    ChunkPlan.covers e 700 ∧
    em_window e !! Z.to_nat (700 - em_start e)
    = Sample.tokens_1000 !! Z.to_nat 700.
Proof.
  assert (700 + 20 ≤ len Sample.tokens_1000) as Hp
    by (change (len Sample.tokens_1000) with 1000; lia).
  exact (tokens_lost_only_in_short_tail Sample.tokens_1000 512 0 700
           ltac:(lia) ltac:(lia) ltac:(lia) Hp).
Defined.

Lemma overlap_19_loses_nothing_witness :
  ∃ ws e,
    page_windows Sample.tokens_1000 512 50 = Ok ws ∧ e ∈ ws ∧
    ChunkPlan.covers e 999 ∧
    em_window e !! Z.to_nat (999 - em_start e)
    = Sample.tokens_1000 !! Z.to_nat 999.
Proof.
  assert (20 ≤ len Sample.tokens_1000 ∧ 0 ≤ 999 < len Sample.tokens_1000)
    as [Hn Hp] by (change (len Sample.tokens_1000) with 1000; lia).
  exact (overlap_19_loses_nothing Sample.tokens_1000 512 50 999
           ltac:(lia) Hn Hp).
Defined.

Lemma window_size_bounds_witness :
  ∃ ws,
    page_windows Sample.tokens_1000 512 50 = Ok ws ∧
    (∀ e, e ∈ ws →
       0 ≤ em_start e ∧ (512 - 50 | em_start e) ∧
       em_window e = slice Sample.tokens_1000 (em_start e) (em_start e + 512) ∧
       20 ≤ len (em_window e) ≤ 512 ∧
       em_start e + len (em_window e) ≤ len Sample.tokens_1000) ∧
    (∀ i a b, ws !! i = Some a → ws !! S i = Some b →
       len (em_window a) = 512 ∧ em_start b = em_start a + (512 - 50)).
Proof.
  eexists. split; [vm_compute; reflexivity|].
  apply (window_size_bounds Sample.tokens_1000 512 50); [lia|lia|].
  vm_compute; reflexivity.
Defined.

Lemma embed_runs_until_first_failure_witness :
  Embedder.embed_texts nat nat Demo.length_server
    (Embedder.new_EmbeddingClient "http://embedding:8080/" (Some 2))
    ["a"; "bb"; "ccc"] "search_document: " 0%nat
  = (2%nat,
     Batching.embed_plan
       (Embedder.new_EmbeddingClient "http://embedding:8080/" (Some 2))
       ["a"; "bb"; "ccc"] "search_document: ",
     Ok [18; 19; 20]%nat).
Proof.
  assert (1 ≤ Embedder.batch_size
                (Embedder.new_EmbeddingClient "http://embedding:8080/" (Some 2)))
    as Hb by (cbn; lia).
  apply (proj1 (embed_runs_until_first_failure nat nat Demo.length_server
                  (Embedder.new_EmbeddingClient "http://embedding:8080/" (Some 2))
                  ["a"; "bb"; "ccc"] "search_document: " 0%nat Hb)).
  vm_compute; reflexivity.
Defined.

Lemma embed_bad_batch_size_witness :
  Embedder.embed_texts nat nat Demo.length_server
    (Embedder.new_EmbeddingClient "http://embedding:8080" (Some 0))
    ["a"; "bb"] "search_document: " 0%nat
  = (0%nat, [], Raise ZeroDivisionError) ∧
  Embedder.embed_texts nat nat Demo.length_server
    (Embedder.new_EmbeddingClient "http://embedding:8080" (Some (-1)))
    ["a"; "bb"] "search_document: " 0%nat
  = (0%nat, [], Ok []).
Proof.
  split.
  - assert (Embedder.batch_size
              (Embedder.new_EmbeddingClient "http://embedding:8080" (Some 0)) ≤ 0)
      as Hb by (cbn; lia).
    exact (embed_bad_batch_size nat nat Demo.length_server _
             ["a"; "bb"] "search_document: " 0%nat Hb).
  - assert (Embedder.batch_size
              (Embedder.new_EmbeddingClient "http://embedding:8080" (Some (-1))) ≤ 0)
      as Hb by (cbn; lia).
    exact (embed_bad_batch_size nat nat Demo.length_server _
             ["a"; "bb"] "search_document: " 0%nat Hb).
Defined.

Lemma keyed_chunk_has_keys : Batching.has_keys Sample.keyed_chunk.
Proof. split; eexists; reflexivity. Qed.

Lemma upsert_in_batches_of_100_witness :
  VectorStore.upsert_chunks nat (list string) Sample.accept_points
    Sample.sample_store [Sample.keyed_chunk] [7%nat] []
  = ([],
     Batching.upsert_trace "pdf_chunks"
       [Batching.point_of Sample.keyed_chunk 7%nat]
       [[Batching.point_of Sample.keyed_chunk 7%nat]],
     Ok ()).
Proof.
  assert (Forall Batching.has_keys [Sample.keyed_chunk]) as Hk
    by (repeat constructor; apply keyed_chunk_has_keys).
  apply (upsert_in_batches_of_100 nat (list string) Sample.accept_points
           Sample.sample_store [Sample.keyed_chunk] [7%nat] [] eq_refl Hk).
  reflexivity.
Defined.

Lemma upsert_stops_at_rejected_batch_witness :
  VectorStore.upsert_chunks nat (list string) Sample.reject_points
    Sample.sample_store [Sample.keyed_chunk] [7%nat] []
  = ([],
     Batching.upsert_trace "pdf_chunks"
       [Batching.point_of Sample.keyed_chunk 7%nat]
       [[Batching.point_of Sample.keyed_chunk 7%nat]],
     Raise (ConnectError "connection refused")).
Proof.
  assert (Forall Batching.has_keys [Sample.keyed_chunk]) as Hk
    by (repeat constructor; apply keyed_chunk_has_keys).
  exact (upsert_stops_at_rejected_batch nat (list string) Sample.reject_points
           Sample.sample_store [Sample.keyed_chunk] [7%nat] []
           [] [Batching.point_of Sample.keyed_chunk 7%nat] [] [] []
           (ConnectError "connection refused")
           eq_refl Hk eq_refl eq_refl eq_refl).
Defined.

Lemma upsert_missing_key_witness :
  VectorStore.upsert_chunks nat (list string) Sample.accept_points
    Sample.sample_store [Sample.keyed_chunk; Sample.bare_chunk] [7; 8]%nat []
  = ([],
     [VectorStore.PointBuilt (Batching.point_of Sample.keyed_chunk 7%nat)],
     Raise (KeyError "content_hash")).
Proof.
  assert (Forall Batching.has_keys [Sample.keyed_chunk]) as Hk
    by (repeat constructor; apply keyed_chunk_has_keys).
  exact (upsert_missing_key nat (list string) Sample.accept_points
           Sample.sample_store [Sample.keyed_chunk] Sample.bare_chunk []
           [7; 8]%nat "content_hash" [] eq_refl Hk eq_refl).
Defined.


Lemma omitted_hash_of_content c p s : hash_of_content (new_Document c p s None).
Proof. unfold new_Document. cbn [default]. by rewrite post_init_empty_hash. Qed.

Lemma identical_pages_share_ids_witness :
  map (fun c => VectorStore.id (Batching.point_of c 7%nat))
    (page_chunks byte_encode byte_decode 512 50 Sample.twin_a)
  = map (fun c => VectorStore.id (Batching.point_of c 8%nat))
      (page_chunks byte_encode byte_decode 512 50 Sample.twin_b).
Proof.
  apply (identical_pages_share_ids byte_encode byte_decode 512 50
           Sample.twin_a Sample.twin_b 7%nat 8%nat).
  - reflexivity.
  - apply omitted_hash_of_content.
  - apply omitted_hash_of_content.
Defined.

Lemma ensure_collection_idempotent_witness :
  ∃ q1 t1,
    Collection.ensure_collection (list string) Sample.list_collections
      Sample.add_collection Sample.sample_store []
    = (q1, t1, Ok ()) ∧
    "pdf_chunks" ∈ q1 ∧
    Collection.ensure_collection (list string) Sample.list_collections
      Sample.add_collection Sample.sample_store q1
    = (q1, [Collection.GetCollections], Ok ()).
Proof.
  destruct (ensure_collection_idempotent (list string) Sample.list_collections
              Sample.add_collection (fun q => q) Sample.sample_store []
              (fun q => eq_refl)
              (fun q n p => ex_intro _ (n :: q) (conj eq_refl (list_elem_of_here n q))))
    as (q1 & t1 & Hrun & Hin & _ & Hagain).
  exists q1, t1. split; [exact Hrun|]. split; [exact Hin|]. exact (Hagain 768).
Defined.

Lemma prompt_messages_have_two_keys_witness :
  dom (RagPipeline.message (PyStr "system") (PyStr RagPipeline.system_prompt))
  = ({["role"; "content"]} : gset string) ∧
  is_Some (RagPipeline.message (PyStr "system") (PyStr RagPipeline.system_prompt)
           !! "role") ∧
  is_Some (RagPipeline.message (PyStr "system") (PyStr RagPipeline.system_prompt)
           !! "content").
Proof.
  apply (prompt_messages_have_two_keys (H := Demo.empty_collection)
           "What is the refund policy?" [] None).
  apply list_elem_of_here.
Defined.

Lemma well_formed_history_forwarded_witness :
  RagPipeline.build_prompt (H := Demo.empty_collection)
    "And for digital goods?" [] (Some Sample.sample_history)
  = RagPipeline.message (PyStr "system") (PyStr RagPipeline.system_prompt)
    :: Sample.sample_history
    ++ [RagPipeline.message (PyStr "user")
          (PyStr (RagPipeline.user_message (H := Demo.empty_collection)
                    "And for digital goods?" []))].
Proof.
  apply (well_formed_history_forwarded (H := Demo.empty_collection)).
  repeat constructor; apply message_dom.
Defined.


Lemma no_upsert_without_embeddings_witness :
  ∃ chunks sent embeddings,
    Ingestion.collect_chunks byte_encode byte_decode (fun s => s)
      (fun _ => "manual.pdf") (fun _ => Sample.sample_pages)
      Ingestion.default_config
      (Sample.sample_glob (Ingestion.pdf_directory Ingestion.default_config) "*.pdf"
       ++ Sample.sample_glob (Ingestion.pdf_directory Ingestion.default_config) "*.PDF")
      [] = Ok chunks ∧
    Embedder.embed_texts nat nat Demo.length_server
      (Embedder.new_EmbeddingClient
         (Ingestion.embedding_url Ingestion.default_config)
         (Some (Ingestion.embedding_batch_size Ingestion.default_config)))
      (map Chunker.text chunks) "search_document: " 0%nat
    = (1%nat, sent, Ok embeddings) ∧
    len chunks = len embeddings.
Proof.
  eapply (no_upsert_without_embeddings byte_encode byte_decode (fun s => s)
            (fun _ => true) Sample.sample_glob (fun _ => "manual.pdf")
            (fun _ => Sample.sample_pages) nat nat Demo.length_server
            (list string) Sample.list_collections Sample.add_collection
            Sample.accept_points Sample.describe_collection
            Ingestion.default_config 0%nat []).
  - vm_compute; reflexivity.
  - do 3 apply list_elem_of_further. apply list_elem_of_here.
Defined.
